(** * PDF-Reader: the job queue, the status store and the status query

    A shallow embedding of [backend/models.py], [backend/services.py],
    [backend/worker.py] and the status endpoint of [backend/main.py].

    Python strings and bytes are [string]s whose characters are the code
    points below 256.  Redis is one key-value store with a per-key expiry
    time, one stream with a single consumer group, and a log of the commands
    it received.  Redis is assumed reachable: its commands are total
    functions on the store, no command raises.  Time is a clock in seconds
    carried by the world. *)

From Stdlib Require Import ZArith String Ascii List Lia Bool.
From stdpp Require Import base option gmap strings list pretty.

(** ** models.py *)

Inductive ParserType := PYPDF | GEMINI.

Inductive ProcessingStatus := PENDING | PROCESSING | COMPLETED | FAILED.

Record ProcessingResult := mkResult {
  job_id : string;
  filename : string;
  parser : ParserType;
  status : ProcessingStatus;
  content : option string;
  summary : option string;
  error : option string;
  created_at : string;
  completed_at : option string
}.

Record JobStatusResponse := mkResponse {
  resp_job_id : string;
  resp_filename : string;
  resp_parser : ParserType;
  resp_status : ProcessingStatus;
  resp_content : option string;
  resp_summary : option string;
  resp_error : option string;
  resp_progress : option string
}.

(** [ParserType.value] and the enum call [ParserType(s)]. *)
Definition ParserType_value (p : ParserType) : string :=
  match p with PYPDF => "pypdf" | GEMINI => "gemini" end.

Definition ParserType_of (s : string) : option ParserType :=
  if String.eqb s "pypdf" then Some PYPDF
  else if String.eqb s "gemini" then Some GEMINI
  else None.

Definition ProcessingStatus_value (s : ProcessingStatus) : string :=
  match s with
  | PENDING => "pending"
  | PROCESSING => "processing"
  | COMPLETED => "completed"
  | FAILED => "failed"
  end.

Definition ProcessingStatus_of (s : string) : option ProcessingStatus :=
  if String.eqb s "pending" then Some PENDING
  else if String.eqb s "processing" then Some PROCESSING
  else if String.eqb s "completed" then Some COMPLETED
  else if String.eqb s "failed" then Some FAILED
  else None.

(** [status in [COMPLETED, FAILED]] *)
Definition is_terminal (s : ProcessingStatus) : bool :=
  match s with COMPLETED | FAILED => true | _ => false end.

(** Attribute assignment on a record: [result.status = ...] and friends. *)
Definition set_status (s : ProcessingStatus) (r : ProcessingResult) :=
  mkResult (job_id r) (filename r) (parser r) s (content r) (summary r)
           (error r) (created_at r) (completed_at r).

Definition set_error (e : option string) (r : ProcessingResult) :=
  mkResult (job_id r) (filename r) (parser r) (status r) (content r)
           (summary r) e (created_at r) (completed_at r).

Definition set_completed_at (t : option string) (r : ProcessingResult) :=
  mkResult (job_id r) (filename r) (parser r) (status r) (content r)
           (summary r) (error r) (created_at r) t.

(** ** JSON text of a flat object of strings

    [json.dumps] with its defaults ([ensure_ascii], separators [", "] and
    [": "]) on a dict of strings, and [json.loads] on such a text. *)

Definition dict := list (string * string).

(** [d.get(k)]: the last binding of a key wins, as in a Python dict built
    from a JSON text. *)
Fixpoint dict_get (k : string) (d : dict) : option string :=
  match d with
  | [] => None
  | (k', v) :: rest =>
      match dict_get k rest with
      | Some v' => Some v'
      | None => if String.eqb k k' then Some v else None
      end
  end.

Definition ch (n : N) : ascii := ascii_of_N n.
Definition c_quote : ascii := ch 34.
Definition c_backslash : ascii := ch 92.

Definition hex_digit (n : N) : ascii :=
  if (n <? 10)%N then ch (48 + n) else ch (87 + n).

(** Value of a hexadecimal digit, either case. *)
Definition hex_val (c : ascii) : option N :=
  let n := N_of_ascii c in
  if ((48 <=? n) && (n <=? 57))%N then Some (n - 48)%N
  else if ((97 <=? n) && (n <=? 102))%N then Some (n - 87)%N
  else if ((65 <=? n) && (n <=? 70))%N then Some (n - 55)%N
  else None.

(** One character of a string literal, as [json.encoder.ESCAPE_ASCII]
    rewrites it: the quote, the backslash, the five short escapes, and
    [\u00xx] for everything outside [' '..'~']. *)
Definition escape_char (c : ascii) : string :=
  let n := N_of_ascii c in
  if (n =? 34)%N then String c_backslash (String c_quote EmptyString)
  else if (n =? 92)%N then String c_backslash (String c_backslash EmptyString)
  else if (n =? 10)%N then String c_backslash "n"
  else if (n =? 13)%N then String c_backslash "r"
  else if (n =? 9)%N then String c_backslash "t"
  else if (n =? 8)%N then String c_backslash "b"
  else if (n =? 12)%N then String c_backslash "f"
  else if ((32 <=? n) && (n <=? 126))%N then String c EmptyString
  else String c_backslash
         (String "u" (String "0" (String "0"
            (String (hex_digit (n / 16)) (String (hex_digit (n mod 16)) EmptyString))))).

Fixpoint escape (s : string) : string :=
  match s with
  | EmptyString => EmptyString
  | String c rest => escape_char c +:+ escape rest
  end.

Definition json_string (s : string) : string :=
  String c_quote (escape s +:+ String c_quote EmptyString).

Definition json_item (kv : string * string) : string :=
  json_string kv.1 +:+ ": " +:+ json_string kv.2.

Fixpoint json_members (d : dict) : string :=
  match d with
  | [] => EmptyString
  | [kv] => json_item kv
  | kv :: rest => json_item kv +:+ ", " +:+ json_members rest
  end.

Definition json_dumps (d : dict) : string :=
  "{" +:+ json_members d +:+ "}".

Inductive token := TLBrace | TRBrace | TColon | TComma | TString (s : string).

(** The scanner is a state machine over the characters of the text. *)
Inductive lex_state :=
| Outside
| InStr
| Esc
| Uni (digits : list N).

Definition is_json_ws (c : ascii) : bool :=
  let n := N_of_ascii c in
  ((n =? 32) || (n =? 9) || (n =? 10) || (n =? 13))%N.

(** The result pairs the rest of the string literal being read (empty when
    the scanner is outside one) with the tokens that follow it. *)
Fixpoint lex (st : lex_state) (s : string) : option (string * list token) :=
  match s with
  | EmptyString =>
      match st with Outside => Some (EmptyString, []) | _ => None end
  | String c rest =>
      let n := N_of_ascii c in
      match st with
      | Outside =>
          if is_json_ws c then lex Outside rest
          else if (n =? 123)%N then
            '(_, ts) ← lex Outside rest; Some (EmptyString, TLBrace :: ts)
          else if (n =? 125)%N then
            '(_, ts) ← lex Outside rest; Some (EmptyString, TRBrace :: ts)
          else if (n =? 58)%N then
            '(_, ts) ← lex Outside rest; Some (EmptyString, TColon :: ts)
          else if (n =? 44)%N then
            '(_, ts) ← lex Outside rest; Some (EmptyString, TComma :: ts)
          else if (n =? 34)%N then
            '(str, ts) ← lex InStr rest; Some (EmptyString, TString str :: ts)
          else None
      | InStr =>
          if (n =? 34)%N then
            '(_, ts) ← lex Outside rest; Some (EmptyString, ts)
          else if (n =? 92)%N then lex Esc rest
          else if (n <? 32)%N then None
          else '(str, ts) ← lex InStr rest; Some (String c str, ts)
      | Esc =>
          let emit (k : N) :=
            '(str, ts) ← lex InStr rest; Some (String (ch k) str, ts) in
          if (n =? 34)%N then emit 34%N
          else if (n =? 92)%N then emit 92%N
          else if (n =? 47)%N then emit 47%N
          else if (n =? 98)%N then emit 8%N
          else if (n =? 102)%N then emit 12%N
          else if (n =? 110)%N then emit 10%N
          else if (n =? 114)%N then emit 13%N
          else if (n =? 116)%N then emit 9%N
          else if (n =? 117)%N then lex (Uni []) rest
          else None
      | Uni ds =>
          match hex_val c with
          | None => None
          | Some d =>
              match ds with
              | [d1; d2; d3] =>
                  let code := (((d1 * 16 + d2) * 16 + d3) * 16 + d)%N in
                  if (code <? 256)%N then
                    '(str, ts) ← lex InStr rest; Some (String (ch code) str, ts)
                  else None
              | _ => lex (Uni (ds ++ [d])) rest
              end
          end
      end
  end.

Fixpoint parse_members (ts : list token) : option dict :=
  match ts with
  | TString k :: TColon :: TString v :: rest =>
      match rest with
      | [TRBrace] => Some [(k, v)]
      | TComma :: more => d ← parse_members more; Some ((k, v) :: d)
      | _ => None
      end
  | _ => None
  end.

Definition parse_object (ts : list token) : option dict :=
  match ts with
  | [TLBrace; TRBrace] => Some []
  | TLBrace :: members => parse_members members
  | _ => None
  end.

Definition json_loads (s : string) : option dict :=
  '(_, ts) ← lex Outside s; parse_object ts.

(** [result.dict(exclude_none=True)]: the fields in declaration order, the
    optional ones only when they are set. *)
Definition opt_item (k : string) (v : option string) : dict :=
  match v with Some x => [(k, x)] | None => [] end.

Definition dict_exclude_none (r : ProcessingResult) : dict :=
  [("job_id", job_id r); ("filename", filename r);
   ("parser", ParserType_value (parser r));
   ("status", ProcessingStatus_value (status r))]
  ++ opt_item "content" (content r)
  ++ opt_item "summary" (summary r)
  ++ opt_item "error" (error r)
  ++ [("created_at", created_at r)]
  ++ opt_item "completed_at" (completed_at r).

(** The constructor [ProcessingResult] applied to the fields of a dict:
    the five required fields must be there and the
    enums must parse; an optional field that is missing is [None]; [None]
    stands for the validation error. *)
Definition ProcessingResult_of_dict (d : dict) : option ProcessingResult :=
  j ← dict_get "job_id" d;
  f ← dict_get "filename" d;
  p ← dict_get "parser" d ≫= ParserType_of;
  s ← dict_get "status" d ≫= ProcessingStatus_of;
  c ← dict_get "created_at" d;
  Some (mkResult j f p s (dict_get "content" d) (dict_get "summary" d)
                 (dict_get "error" d) c (dict_get "completed_at" d)).

(** ** Python string helpers *)

(** [str.isspace] on the code points below 256. *)
Definition py_isspace (c : ascii) : bool :=
  let n := N_of_ascii c in
  (((9 <=? n) && (n <=? 13)) || ((28 <=? n) && (n <=? 32))
   || (n =? 133) || (n =? 160))%N.

Fixpoint lstrip (s : string) : string :=
  match s with
  | EmptyString => EmptyString
  | String c rest => if py_isspace c then lstrip rest else s
  end.

Fixpoint rstrip (s : string) : string :=
  match s with
  | EmptyString => EmptyString
  | String c rest =>
      match rstrip rest with
      | EmptyString => if py_isspace c then EmptyString else String c EmptyString
      | rest' => String c rest'
      end
  end.

Definition strip (s : string) : string := rstrip (lstrip s).

(** Truth value of a string: [if s:]. *)
Definition truthy (s : string) : bool :=
  match s with EmptyString => false | _ => true end.

(** ** Exceptions, the world and the monad of the services *)

Inductive exn :=
| Exception (msg : string)
| ValueError (msg : string)
| TypeError (msg : string)
| Timeout (msg : string)
| HTTPException (status_code : Z) (detail : string).

Definition str_exn (e : exn) : string :=
  match e with
  | Exception m | ValueError m | TypeError m | Timeout m => m
  | HTTPException c d => pretty c +:+ ": " +:+ d
  end.

(** The fields of a stream entry, as [add_job_to_queue] writes them; Redis
    hands them back as strings. *)
Record StreamEntry := mkEntry {
  e_job_id : string;
  e_filename : string;
  e_parser : string;
  e_pdf_key : string;
  e_timestamp : string
}.

(** The commands Redis receives, newest first in the log. *)
Inductive command :=
| SET (key value : string) (ex : Z)
| GET (key : string)
| XADD (data : StreamEntry)
| XREADGROUP
| XACK (message_id : nat).

(** [kv] maps a key to its value and the time at which it expires; a
    message id is the position of the entry in [stream]; [delivered] counts
    the entries handed to the consumer group, [pel] holds the delivered
    entries that are not acknowledged yet; [clock] is in seconds. *)
Record World := mkWorld {
  kv : gmap string (string * Z);
  stream : list StreamEntry;
  delivered : nat;
  pel : gset nat;
  clock : Z;
  trace : list command
}.

Definition init_world : World := mkWorld ∅ [] 0 ∅ 0 [].

Inductive outcome (A : Type) :=
| Ok (a : A)
| Raise (e : exn).
Arguments Ok {A} a.
Arguments Raise {A} e.

Definition M (A : Type) : Type := World → outcome A * World.

#[global] Instance M_ret : MRet M := λ A a w, (Ok a, w).

#[global] Instance M_bind : MBind M := λ A B f m w,
  match m w with
  | (Ok a, w') => f a w'
  | (Raise e, w') => (Raise e, w')
  end.

Definition raise {A} (e : exn) : M A := λ w, (Raise e, w).

(** [try: body except Exception as e: handler e] *)
Definition try_except {A} (body : M A) (handler : exn → M A) : M A := λ w,
  match body w with
  | (Ok a, w') => (Ok a, w')
  | (Raise e, w') => handler e w'
  end.

(** [except requests.exceptions.Timeout as e] catches that class only. *)
Definition try_except_Timeout {A} (body : M A) (handler : string → M A) : M A := λ w,
  match body w with
  | (Raise (Timeout m), w') => handler m w'
  | r => r
  end.

Definition lift {A} (o : outcome A) : M A := λ w, (o, w).

Fixpoint for_each {A} (l : list A) (body : A → M unit) : M unit :=
  match l with
  | [] => mret tt
  | x :: rest => _ ← body x; for_each rest body
  end.

Definition now : M Z := λ w, (Ok (clock w), w).

(** [time.sleep] and the time an external call takes. *)
Definition sleep (seconds : Z) : M unit := λ w,
  (Ok tt, mkWorld (kv w) (stream w) (delivered w) (pel w)
                  (clock w + seconds) (trace w)).

(** *** The Redis commands *)

(** [SET key value EX ex] *)
Definition redis_set (key value : string) (ex : Z) : M unit := λ w,
  (Ok tt, mkWorld (<[key := (value, (clock w + ex)%Z)]> (kv w)) (stream w)
                  (delivered w) (pel w) (clock w)
                  (SET key value ex :: trace w)).

(** [GET key]: an expired key is gone. *)
Definition live (w : World) (key : string) : option string :=
  match kv w !! key with
  | Some (value, expires) => if (clock w <? expires)%Z then Some value else None
  | None => None
  end.

Definition redis_get (key : string) : M (option string) := λ w,
  (Ok (live w key),
   mkWorld (kv w) (stream w) (delivered w) (pel w) (clock w)
           (GET key :: trace w)).

(** [XADD stream * fields] *)
Definition redis_xadd (data : StreamEntry) : M nat := λ w,
  (Ok (length (stream w)),
   mkWorld (kv w) (stream w ++ [data]) (delivered w) (pel w) (clock w)
           (XADD data :: trace w)).

(** [XREADGROUP GROUP g c COUNT 1 BLOCK block STREAMS s >]: the next entry
    never delivered to the group, which enters the pending list; with none
    the call blocks for [block] milliseconds and returns nothing. *)
Definition redis_xreadgroup (block : Z) : M (list (nat * StreamEntry)) := λ w,
  match stream w !! delivered w with
  | Some data =>
      (Ok [(delivered w, data)],
       mkWorld (kv w) (stream w) (S (delivered w)) ({[delivered w]} ∪ pel w)
               (clock w) (XREADGROUP :: trace w))
  | None =>
      (Ok [],
       mkWorld (kv w) (stream w) (delivered w) (pel w)
               (clock w + block / 1000) (XREADGROUP :: trace w))
  end.

(** [XACK stream group id] *)
Definition redis_xack (message_id : nat) : M unit := λ w,
  (Ok tt, mkWorld (kv w) (stream w) (delivered w) (pel w ∖ {[message_id]})
                  (clock w) (XACK message_id :: trace w)).

(** ** Stand-ins for the library functions, for the examples

    The development is parametric in the two timestamp formats and in the
    UUID test; the examples at the end run it with these. *)

Definition epoch_isoformat (t : Z) : string := pretty t.

Definition epoch_isoformat_utc (t : Z) : string := pretty t +:+ "+00:00".

(** [true] stands for a hexadecimal digit, [false] for a hyphen. *)
Fixpoint has_shape (shape : list bool) (s : string) : bool :=
  match shape, s with
  | [], EmptyString => true
  | true :: shape', String c rest =>
      bool_decide (is_Some (hex_val c)) && has_shape shape' rest
  | false :: shape', String c rest =>
      (N_of_ascii c =? 45)%N && has_shape shape' rest
  | _, _ => false
  end.

(** The 8-4-4-4-12 form of a UUID. *)
Definition canonical_uuid (s : string) : bool :=
  has_shape (replicate 8 true ++ false :: replicate 4 true
             ++ false :: replicate 4 true ++ false :: replicate 4 true
             ++ false :: replicate 12 true) s.

Section Backend.

(** Library functions the code calls and this development leaves open:
    [datetime.utcnow().isoformat()] and
    [datetime.now(timezone.utc).isoformat()] as functions of the clock, and
    whether [uuid.UUID(s)] accepts a string. *)
Variable utcnow_isoformat : Z → string.
Variable now_utc_isoformat : Z → string.
Variable uuid_UUID : string → bool.

(** ** services.py: RedisService *)

Definition save_result (result : ProcessingResult) : M unit :=
  let key := "result:" +:+ job_id result in
  redis_set key (json_dumps (dict_exclude_none result)) 3600.

Definition get_result (job_id : string) : M (option ProcessingResult) :=
  let key := "result:" +:+ job_id in
  data ← redis_get key;
  match data with
  | Some text =>
      if truthy text then
        match json_loads text with
        | None => raise (ValueError "invalid JSON document")
        | Some d =>
            match ProcessingResult_of_dict d with
            | None => raise (ValueError "validation error for ProcessingResult")
            | Some r => mret (Some r)
            end
        end
      else mret None
  | None => mret None
  end.

Definition add_job_to_queue (job_id filename pdf_data : string)
    (parser : ParserType) : M nat :=
  let pdf_key := "pdf:" +:+ job_id in
  _ ← redis_set pdf_key pdf_data 3600;
  t ← now;
  message_id ← redis_xadd
    (mkEntry job_id filename (ParserType_value parser) pdf_key
             (utcnow_isoformat t));
  t' ← now;
  _ ← save_result
    (mkResult job_id filename parser PENDING None None None
              (utcnow_isoformat t') None);
  mret message_id.

Definition get_pdf_data (pdf_key : string) : M (option string) :=
  redis_get pdf_key.

Definition acknowledge_message (message_id : nat) : M unit :=
  redis_xack message_id.

(** [read_from_stream(count=1, block=5000)]; its handler turns any error of
    the read into the empty list. *)
Definition read_from_stream (block : Z) : M (list (nat * StreamEntry)) :=
  try_except (redis_xreadgroup block) (λ _, mret []).

(** ** services.py: PDFProcessingService

    What the PDF libraries and the network answer is given by an [Env]: the
    outcome of [extract_with_pypdf] on a payload, of [generate_summary] on a
    text, of the body of one attempt of [process_with_gemini] (the text of
    the response, or the exception the upload, the status poll or the
    generation raised), and the seconds these calls take. *)
Record Env := mkEnv {
  env_extract_with_pypdf : string → outcome string;
  env_generate_summary : string → outcome string;
  env_gemini_attempt : string → string → bool → nat → outcome string;
  env_seconds : N
}.

Definition no_text : string := "No text could be extracted from the PDF.".

Definition timed_out_message (retries : nat) : string :=
  "Processing timed out after " +:+ pretty retries
    +:+ " attempts. The PDF may be too large or complex.".

(** The loop [for attempt in range(1, retries + 1)], [remaining] attempts
    from [attempt] on.  Falling off the loop returns Python's [None]. *)
Fixpoint gemini_attempts (env : Env) (pdf_data filename : string)
    (is_summary_only : bool) (retries attempt remaining : nat)
    : M (option string) :=
  match remaining with
  | 0 => mret None
  | S remaining' =>
      try_except_Timeout
        (text ← lift (env_gemini_attempt env pdf_data filename is_summary_only attempt);
         if negb (truthy text) || (String.length (strip text) <? 10)
         then mret (Some no_text)
         else mret (Some text))
        (λ _,
           if attempt =? retries then mret (Some (timed_out_message retries))
           else
             _ ← sleep 3;
             gemini_attempts env pdf_data filename is_summary_only retries
                             (S attempt) remaining')
  end.

Definition process_with_gemini (env : Env) (pdf_data filename : string)
    (is_summary_only : bool) (retries : nat) : M (option string) :=
  gemini_attempts env pdf_data filename is_summary_only retries 1 retries.

Definition process_document (env : Env) (pdf_data : string)
    (parser : ParserType) (filename : string)
    : M (option string * option string) :=
  _ ← sleep (Z.of_N (env_seconds env));
  match parser with
  | PYPDF =>
      content ← lift (env_extract_with_pypdf env pdf_data);
      summary ← lift (env_generate_summary env content);
      mret (Some content, Some summary)
  | GEMINI =>
      content ← process_with_gemini env pdf_data filename false 3;
      summary ← process_with_gemini env pdf_data filename true 3;
      mret (content, summary)
  end.

(** ** worker.py *)

(** The enum call [ParserType(data.get('parser'))]. *)
Definition ParserType_call (s : string) : M ParserType :=
  match ParserType_of s with
  | Some p => mret p
  | None => raise (ValueError (s +:+ " is not a valid ParserType"))
  end.

(** The block under [try:] in [process_message]. *)
Definition process_message_try (env : Env) (message_id : nat)
    (job_id filename : string) (parser : ParserType) (pdf_key : string)
    : M unit :=
  result ← get_result job_id;
  result ← match result with
           | Some r =>
               let r' := set_status PROCESSING r in
               _ ← save_result r'; mret (Some r')
           | None => mret None
           end;
  pdf_data ← get_pdf_data pdf_key;
  match pdf_data with
  | Some pdf_data =>
      if truthy pdf_data then
        '(content, summary) ← process_document env pdf_data parser filename;
        _ ← match summary with
            | Some _ => mret tt
            | None => raise (TypeError "object of type 'NoneType' has no len()")
            end;
        t ← now;
        t' ← now;
        let result :=
          mkResult job_id filename parser COMPLETED content summary None
                   (match result with
                    | Some r => created_at r
                    | None => now_utc_isoformat t
                    end)
                   (Some (now_utc_isoformat t')) in
        _ ← save_result result;
        acknowledge_message message_id
      else raise (Exception "PDF data not found in Redis")
  | None => raise (Exception "PDF data not found in Redis")
  end.

(** The record the handler writes over [r]. *)
Definition mark_failed (e : exn) (t : Z) (r : ProcessingResult)
    : ProcessingResult :=
  set_completed_at (Some (now_utc_isoformat t))
    (set_error (Some (str_exn e)) (set_status FAILED r)).

(** The block under [except Exception as e:]. *)
Definition process_message_except (message_id : nat) (job_id : string)
    (e : exn) : M unit :=
  result ← get_result job_id;
  _ ← match result with
      | Some r => t ← now; save_result (mark_failed e t r)
      | None => mret tt
      end;
  acknowledge_message message_id.

Definition process_message (env : Env) (message_id : nat) (data : StreamEntry)
    : M unit :=
  let job_id := e_job_id data in
  let filename := e_filename data in
  parser ← ParserType_call (e_parser data);
  let pdf_key := e_pdf_key data in
  try_except
    (process_message_try env message_id job_id filename parser pdf_key)
    (process_message_except message_id job_id).

(** One pass of the body of [while self.running] in [Worker.run]. *)
Definition worker_iteration (env : Env) : M unit :=
  try_except
    (messages ← read_from_stream 5000;
     for_each messages (λ '(message_id, data),
       process_message env message_id data))
    (λ _, sleep 1).

(** ** The system: producers, the worker and time *)

Inductive op :=
| Enqueue (job_id filename pdf_data : string) (parser : ParserType)
| Work (env : Env)
| Wait (seconds : N).

Definition run_op (o : op) : M unit :=
  match o with
  | Enqueue j f d p => _ ← add_job_to_queue j f d p; mret tt
  | Work env => worker_iteration env
  | Wait s => sleep (Z.of_N s)
  end.

Definition run_ops (ops : list op) : M unit := for_each ops run_op.

Definition exec (o : op) (w : World) : World := (run_op o w).2.

Definition exec_all (ops : list op) (w : World) : World := (run_ops ops w).2.

(** The worlds the system reaches when every enqueued job id is new, as
    [uuid.uuid4()] makes them. *)
Inductive reachable : World → Prop :=
| reach_init : reachable init_world
| reach_enqueue w j f d p :
    reachable w → j ∉ (e_job_id <$> stream w) →
    reachable (exec (Enqueue j f d p) w)
| reach_work w env : reachable w → reachable (exec (Work env) w)
| reach_wait w s : reachable w → reachable (exec (Wait s) w).

(** ** main.py: the status endpoint *)

Definition progress_of (s : ProcessingStatus) : option string :=
  Some (match s with
        | PENDING => "Waiting in queue..."
        | PROCESSING =>
            "Processing document... This may take several minutes for large PDFs."
        | COMPLETED => "Processing complete!"
        | FAILED => "Processing failed"
        end).

Definition response_of (result : ProcessingResult) : JobStatusResponse :=
  mkResponse (job_id result) (filename result) (parser result) (status result)
             (content result) (summary result) (error result)
             (progress_of (status result)).

(** [await asyncio.sleep(poll_interval)]: the request is suspended and the
    rest of the system, here [others], runs meanwhile. *)
Definition asyncio_sleep (seconds : Z) (others : list op) : M unit :=
  _ ← sleep seconds; run_ops others.

(** The polling loop, [fuel] iterations at most; [k] counts the sleeps so
    far, [others k] is what the rest of the system does during sleep [k].
    [None] is an exhausted [fuel]. *)
Fixpoint poll (fuel : nat) (timeout poll_interval : Z) (job_id : string)
    (start_time : Z) (others : nat → list op) (k : nat)
    (result : option ProcessingResult) (w : World)
    : option (outcome (option ProcessingResult) * World) :=
  if (clock w - start_time <? timeout)%Z then
    match fuel with
    | 0 => None
    | S fuel' =>
        match get_result job_id w with
        | (Ok (Some r), w') =>
            if is_terminal (status r) then Some (Ok (Some r), w')
            else
              match asyncio_sleep poll_interval (others k) w' with
              | (Ok _, w'') =>
                  poll fuel' timeout poll_interval job_id start_time others
                       (S k) (Some r) w''
              | (Raise e, w'') => Some (Raise e, w'')
              end
        | (Ok None, w') => Some (Raise (HTTPException 404 "Job not found"), w')
        | (Raise e, w') => Some (Raise e, w')
        end
    end
  else Some (Ok result, w).

(** The endpoint with its two constants as parameters. *)
Definition status_query (timeout poll_interval : Z) (fuel : nat)
    (others : nat → list op) (job_id : string) (w : World)
    : option (outcome JobStatusResponse * World) :=
  if negb (truthy job_id) || negb (truthy (strip job_id)) then
    Some (Raise (HTTPException 400 "Job ID is required"), w)
  else if negb (uuid_UUID job_id) then
    Some (Raise (HTTPException 400 "Invalid job ID format"), w)
  else
    let start_time := clock w in
    match poll fuel timeout poll_interval job_id start_time others 0 None w with
    | None => None
    | Some (Raise (HTTPException c d), w') => Some (Raise (HTTPException c d), w')
    | Some (Raise e, w') =>
        Some (Raise (HTTPException 500
                       ("Error checking job status: " +:+ str_exn e)), w')
    | Some (Ok None, w') =>
        Some (Raise (HTTPException 408
                       "Request timeout: Job processing took too long"), w')
    | Some (Ok (Some result), w') => Some (Ok (response_of result), w')
    end.

Definition get_job_status := status_query 300 2.

(** ** What the claims speak about *)

Definition result_key (j : string) : string := "result:" +:+ j.
Definition pdf_key_of (j : string) : string := "pdf:" +:+ j.

(** The record a key of the status store holds, expired or not. *)
Definition decode_result (text : string) : option ProcessingResult :=
  json_loads text ≫= ProcessingResult_of_dict.

(** The record a reader finds for a job now. *)
Definition stored_result (w : World) (j : string) : option ProcessingResult :=
  live w (result_key j) ≫= decode_result.

(** The records written for job [j], oldest first, and their statuses. *)
Definition record_write (j : string) (c : command) : option ProcessingResult :=
  match c with
  | SET key value _ =>
      if decide (key = result_key j) then decode_result value else None
  | _ => None
  end.

Definition record_history (j : string) (tr : list command)
    : list ProcessingResult :=
  omap (record_write j) (rev tr).

Definition status_history (j : string) (tr : list command)
    : list ProcessingStatus :=
  status <$> record_history j tr.

Definition rank (s : ProcessingStatus) : nat :=
  match s with PENDING => 0 | PROCESSING => 1 | COMPLETED | FAILED => 2 end.

(** Every write moves the status strictly forward. *)
Fixpoint forward_only (l : list ProcessingStatus) : bool :=
  match l with
  | s :: ((s' :: _) as rest) => (rank s <? rank s') && forward_only rest
  | _ => true
  end.



(** A record whose fields agree with its status. *)
Definition consistent (r : ProcessingResult) : Prop :=
  match status r with
  | PENDING | PROCESSING =>
      content r = None ∧ summary r = None ∧ error r = None
      ∧ completed_at r = None
  | COMPLETED =>
      is_Some (content r) ∧ is_Some (summary r) ∧ error r = None
  | FAILED => content r = None ∧ summary r = None ∧ is_Some (error r)
  end.

(** ** World transformers of the commands, for the proofs *)

Definition log (c : command) (w : World) : World :=
  mkWorld (kv w) (stream w) (delivered w) (pel w) (clock w) (c :: trace w).

Definition tick (n : Z) (w : World) : World :=
  mkWorld (kv w) (stream w) (delivered w) (pel w) (clock w + n) (trace w).

Definition set_key (key value : string) (ex : Z) (w : World) : World :=
  mkWorld (<[key := (value, (clock w + ex)%Z)]> (kv w)) (stream w)
          (delivered w) (pel w) (clock w) (SET key value ex :: trace w).

Definition put (r : ProcessingResult) (w : World) : World :=
  set_key (result_key (job_id r)) (json_dumps (dict_exclude_none r)) 3600 w.

Definition ack (message_id : nat) (w : World) : World :=
  mkWorld (kv w) (stream w) (delivered w) (pel w ∖ {[message_id]}) (clock w)
          (XACK message_id :: trace w).

(** What [process_document] returns and the seconds it takes do not depend
    on the world it runs in. *)
Definition extract (env : Env) (pdf_data : string) (parser : ParserType)
    (filename : string) : outcome (option string * option string) :=
  (process_document env pdf_data parser filename init_world).1.

Definition extract_seconds (env : Env) (pdf_data : string)
    (parser : ParserType) (filename : string) : Z :=
  clock (process_document env pdf_data parser filename init_world).2.

(** ** Invariants *)

(** Every value under a status key is the JSON text of a record of that
    job. *)
Definition wf_store (w : World) : Prop :=
  ∀ j v x, kv w !! result_key j = Some (v, x) →
    ∃ r, v = json_dumps (dict_exclude_none r) ∧ job_id r = j.

(** Every entry of the stream is one [add_job_to_queue] wrote. *)
Definition wf_stream (w : World) : Prop :=
  ∀ i e, stream w !! i = Some e →
    (∃ p, e_parser e = ParserType_value p)
    ∧ e_pdf_key e = pdf_key_of (e_job_id e).

Definition pending_record (e : StreamEntry) (r : ProcessingResult) : Prop :=
  job_id r = e_job_id e ∧ filename r = e_filename e
  ∧ ParserType_value (parser r) = e_parser e ∧ status r = PENDING
  ∧ content r = None ∧ summary r = None ∧ error r = None
  ∧ completed_at r = None.

(** The history of one job: statuses move forward, records are consistent. *)
Definition chain (h : list ProcessingResult) : Prop :=
  forward_only (status <$> h) = true ∧ Forall consistent h.

(** The part of the invariant that holds at every point of the worker's
    run, with job [j] in flight and history [h]. *)
Record in_flight (j : string) (h : list ProcessingResult) (w : World) : Prop := {
  fl_stream : wf_stream w;
  fl_nodup : NoDup (e_job_id <$> stream w);
  fl_store : ∀ j' v x, kv w !! result_key j' = Some (v, x) →
    ∃ r, last (record_history j' (trace w)) = Some r
         ∧ v = json_dumps (dict_exclude_none r) ∧ job_id r = j';
  fl_known : j ∈ (e_job_id <$> stream w);
  fl_history : record_history j (trace w) = h;
  fl_others : ∀ j', j' ≠ j → chain (record_history j' (trace w));
  fl_undelivered : ∀ i e, stream w !! i = Some e → delivered w ≤ i →
    e_job_id e ≠ j
    ∧ ∃ r, record_history (e_job_id e) (trace w) = [r] ∧ pending_record e r;
  fl_unknown : ∀ j', j' ∉ (e_job_id <$> stream w) →
    record_history j' (trace w) = []
}.

(** The invariant between two operations of the system. *)
Record invariant (w : World) : Prop := {
  inv_stream : wf_stream w;
  inv_nodup : NoDup (e_job_id <$> stream w);
  inv_store : ∀ j v x, kv w !! result_key j = Some (v, x) →
    ∃ r, last (record_history j (trace w)) = Some r
         ∧ v = json_dumps (dict_exclude_none r) ∧ job_id r = j;
  inv_chain : ∀ j, chain (record_history j (trace w));
  inv_undelivered : ∀ i e, stream w !! i = Some e → delivered w ≤ i →
    ∃ r, record_history (e_job_id e) (trace w) = [r] ∧ pending_record e r;
  inv_unknown : ∀ j, j ∉ (e_job_id <$> stream w) →
    record_history j (trace w) = []
}.

(** The tokens of the text [json_dumps] writes. *)
Definition item_tokens (kv : string * string) : list token :=
  [TString kv.1; TColon; TString kv.2].

Fixpoint member_tokens (d : dict) : list token :=
  match d with
  | [] => []
  | [kv] => item_tokens kv
  | kv :: rest => item_tokens kv ++ TComma :: member_tokens rest
  end.

(** Computations that touch nothing but the clock. *)
Definition clock_only {A} (m : M A) : Prop :=
  ∀ w, m w = ((m init_world).1, tick (clock (m init_world).2) w).

(** The world after the first two statements of the [try] block: the
    status read and, when a record is there, its write as [PROCESSING]. *)
Definition mark_processing (j : string) (w : World) : World :=
  match stored_result w j with
  | Some r => put (set_status PROCESSING r) (log (GET (result_key j)) w)
  | None => log (GET (result_key j)) w
  end.

Definition xadd (e : StreamEntry) (w : World) : World :=
  mkWorld (kv w) (stream w ++ [e]) (delivered w) (pel w) (clock w)
          (XADD e :: trace w).

(** The world after a read that delivers an entry. *)
Definition deliver (w : World) : World :=
  mkWorld (kv w) (stream w) (S (delivered w)) ({[delivered w]} ∪ pel w)
          (clock w) (XREADGROUP :: trace w).

(** The world after the status read and the write of the [except] block. *)
Definition record_failure (j : string) (e : exn) (w : World) : World :=
  match stored_result w j with
  | Some r => put (mark_failed e (clock w) r) (log (GET (result_key j)) w)
  | None => log (GET (result_key j)) w
  end.

(** The record the [try] block writes on success at time [t]; [r0] is the
    record the status read found. *)
Definition completed_record (j f : string) (p : ParserType)
    (c s : option string) (r0 : option ProcessingResult) (t : Z)
    : ProcessingResult :=
  mkResult j f p COMPLETED c s None
           (match r0 with
            | Some r => created_at r
            | None => now_utc_isoformat t
            end)
           (Some (now_utc_isoformat t)).

Definition missing_payload : exn := Exception "PDF data not found in Redis".

(** The [try] block as a function of the world it starts in. *)
Definition try_outcome (env : Env) (i : nat) (j f : string) (p : ParserType)
    (k : string) (w : World) : outcome unit * World :=
  let w1 := log (GET k) (mark_processing j w) in
  match live w1 k with
  | Some pdf =>
      if truthy pdf then
        let w2 := tick (extract_seconds env pdf p f) w1 in
        match extract env pdf p f with
        | Ok (c, Some s) =>
            (Ok tt,
             ack i (put (completed_record j f p c (Some s) (stored_result w j)
                                          (clock w2)) w2))
        | Ok (c, None) =>
            (Raise (TypeError "object of type 'NoneType' has no len()"), w2)
        | Raise e => (Raise e, w2)
        end
      else (Raise missing_payload, w1)
  | None => (Raise missing_payload, w1)
  end.

(** The history of the job in flight before the terminal write. *)
Definition open_history (rp : ProcessingResult) (h : list ProcessingResult) : Prop :=
  h = [rp] ∨ h = [rp; set_status PROCESSING rp].

(** The entry and the record [add_job_to_queue] writes at time [t]. *)
Definition new_entry (j f : string) (p : ParserType) (t : Z) : StreamEntry :=
  mkEntry j f (ParserType_value p) (pdf_key_of j) (utcnow_isoformat t).

Definition new_record (j f : string) (p : ParserType) (t : Z)
    : ProcessingResult :=
  mkResult j f p PENDING None None None (utcnow_isoformat t) None.


(** Computations that never turn the clock back. *)
Definition clock_mono {A} (m : M A) : Prop :=
  ∀ w, (clock w ≤ clock (m w).2)%Z.

(** ** Examples *)

Definition demo_id : string := "123e4567-e89b-12d3-a456-426614174000".

(** An extractor that succeeds on the pypdf path and whose Gemini calls
    always time out; one whose pypdf path fails. *)
Definition demo_env : Env :=
  mkEnv (λ _, Ok "text of the document") (λ _, Ok "a summary")
        (λ _ _ _ _, Raise (Timeout "read timed out")) 7.

Definition demo_env_failing : Env :=
  mkEnv (λ _, Raise (Exception "PyPDF extraction failed: PDF has no pages"))
        (λ _, Ok "a summary")
        (λ _ _ _ _, Raise (Timeout "read timed out")) 7.

Definition demo_queued : World :=
  exec (Enqueue demo_id "a.pdf" "%PDF-1.4" PYPDF) init_world.

Definition demo_entry : StreamEntry := new_entry demo_id "a.pdf" PYPDF 0.

Definition demo_record : ProcessingResult := new_record demo_id "a.pdf" PYPDF 0.

Definition demo_done : World := exec (Work demo_env) demo_queued.


(** The job an hour after it was queued: payload and record have expired. *)
Definition demo_expired : World := exec (Wait 3600) demo_queued.

Definition demo_gemini_queued : World :=
  exec (Enqueue demo_id "b.pdf" "%PDF-1.4" GEMINI) init_world.

Definition demo_gemini_entry : StreamEntry :=
  new_entry demo_id "b.pdf" GEMINI 0.

(** While the first sleep of a status query lasts, the worker runs once. *)
Definition demo_others (k : nat) : list op :=
  match k with 0 => [Work demo_env] | _ => [] end.

(** ** main.py: the upload endpoint and the health probe *)

(** [str.lower] on the code points below 256. *)
Definition py_lower_char (c : ascii) : ascii :=
  let n := N_of_ascii c in
  if (((65 <=? n) && (n <=? 90))
      || ((192 <=? n) && (n <=? 222) && negb (n =? 215)))%N
  then ch (n + 32) else c.

Fixpoint lower (s : string) : string :=
  match s with
  | EmptyString => EmptyString
  | String c rest => String (py_lower_char c) (lower rest)
  end.

Fixpoint drop_chars (n : nat) (s : string) : string :=
  match n, s with
  | 0, _ => s
  | S n', String _ rest => drop_chars n' rest
  | S _, EmptyString => EmptyString
  end.

(** [s.endswith(suffix)] *)
Definition endswith (s suffix : string) : bool :=
  (String.length suffix <=? String.length s)
  && String.eqb (drop_chars (String.length s - String.length suffix) s) suffix.

(** What the endpoint sees of an [UploadFile]: its name, when it has one,
    and what [await file.read()] gives. *)
Record UploadFile := mkUpload {
  upload_filename : option string;
  upload_read : outcome string
}.

Record DocumentUploadResponse := mkUploadResponse {
  up_job_id : string;
  up_status : ProcessingStatus;
  up_message : string
}.

(** The id string Redis returns for the entry at a position of the
    stream, of the form [<ms>-<seq>]. *)
Definition stream_id (message_id : nat) : string := pretty message_id +:+ "-0".

(** [upload_document]; [uuid4] is what [str(uuid.uuid4())] returns. *)
Definition upload_document (uuid4 : string) (file : option UploadFile)
    (parser : ParserType) : M DocumentUploadResponse :=
  match file with
  | None => raise (HTTPException 400 "No file provided")
  | Some file =>
      match upload_filename file with
      | None => raise (HTTPException 400 "No file provided")
      | Some name =>
          if negb (truthy name) then
            raise (HTTPException 400 "No file provided")
          else if negb (endswith (lower name) ".pdf") then
            raise (HTTPException 400 "Only PDF files are supported")
          else
            content ← try_except (lift (upload_read file))
              (λ e, raise (HTTPException 400
                             ("Failed to read file: " +:+ str_exn e)));
            if negb (truthy content) || (String.length content =? 0) then
              raise (HTTPException 400 "File is empty")
            else if (10 * 1024 * 1024 <? Z.of_nat (String.length content))%Z
            then raise (HTTPException 400 "File size must be less than 10MB")
            else
              let job_id := uuid4 in
              try_except
                (message_id ← add_job_to_queue job_id name content parser;
                 if negb (truthy (stream_id message_id)) then
                   raise (Exception "Failed to get message ID from Redis")
                 else
                   mret (mkUploadResponse job_id PENDING
                           "Document queued for processing. Use job_id to check status."))
                (λ e, raise (HTTPException 500
                               ("Failed to queue document: " +:+ str_exn e)))
      end
  end.

(** [health_check]: the status code and the body of the response.
    [ping] has no effect on the store. *)
Definition health_check : M (Z * dict) :=
  try_except
    (let test_key := "health_check_test" in
     _ ← redis_set test_key "ok" 10;
     test_value ← redis_get test_key;
     if bool_decide (test_value = Some "ok") then
       mret (200%Z, [("status", "healthy"); ("redis", "connected")])
     else raise (Exception "Redis read/write test failed"))
    (λ e, mret (503%Z, [("status", "unhealthy"); ("redis", "disconnected");
                        ("error", str_exn e)])).

(** ** worker.py: the loop *)

(** [Worker.run]: one pair per pass of the loop, the extractor of that pass
    and whether a shutdown signal arrives during it ([handle_shutdown]
    clears [self.running], which the loop tests before the next pass).  A
    schedule that ends is the horizon of the model. *)
Fixpoint run (schedule : list (Env * bool)) : M unit :=
  match schedule with
  | [] => mret tt
  | (env, shutdown) :: rest =>
      _ ← worker_iteration env;
      if shutdown then mret tt else run rest
  end.

(** The passes [run] makes: up to the first one with a signal. *)
Fixpoint passes (schedule : list (Env * bool)) : list op :=
  match schedule with
  | [] => []
  | (env, shutdown) :: rest =>
      Work env :: (if shutdown then [] else passes rest)
  end.

(** The ids acknowledged, oldest first. *)
Definition acked (tr : list command) : list nat :=
  omap (λ c, match c with XACK i => Some i | _ => None end) (rev tr).

(** One operation of the system, a job id being new when it is enqueued,
    and any number of them. *)
Inductive step : World → World → Prop :=
| step_enqueue w j f d p :
    j ∉ (e_job_id <$> stream w) → step w (exec (Enqueue j f d p) w)
| step_work w env : step w (exec (Work env) w)
| step_wait w s : step w (exec (Wait s) w).

Inductive steps : World → World → Prop :=
| steps_refl w : steps w w
| steps_step w w' w'' : steps w w' → step w' w'' → steps w w''.

(** Computations that keep a property of the world, whatever they
    return. *)
Definition preserves {A} (P : World → Prop) (m : M A) : Prop :=
  ∀ w, P w → P (m w).2.

(** Entry [i] was delivered to the worker and is not acknowledged. *)
Definition stuck (i : nat) (w : World) : Prop :=
  i ∈ pel w ∧ i < delivered w.

(** ** services.py: the PyPDF path in detail

    [extract_with_pypdf], [is_image_based_pdf] and [generate_summary] as
    functions of what the libraries answer: [PdfReader] on a payload gives
    the number of its pages, pages are numbered from 1, and the text of a
    page, the images of a page and the text of an image are outcomes that
    depend on the payload and the page only. *)
Record PdfLib := mkPdfLib {
  (** [len(PdfReader(io.BytesIO(pdf_data)).pages)] *)
  lib_pages : string → outcome nat;
  (** [page.extract_text()] *)
  lib_extract_text : string → nat → outcome string;
  (** [convert_from_bytes(pdf_data, first_page=n, last_page=n)] *)
  lib_convert_from_bytes : string → nat → outcome (list string);
  (** [pytesseract.image_to_string(image, lang='eng')] *)
  lib_image_to_string : string → outcome string
}.

Definition nl : string := String (ch 10) EmptyString.

(** [sep.join(l)] *)
Fixpoint str_join (sep : string) (l : list string) : string :=
  match l with
  | [] => EmptyString
  | [x] => x
  | x :: rest => x +:+ sep +:+ str_join sep rest
  end.

(** [s[:n]] *)
Fixpoint take_chars (n : nat) (s : string) : string :=
  match n, s with
  | S n', String c rest => String c (take_chars n' rest)
  | _, _ => EmptyString
  end.

(** [not text or len(text.strip()) < 10] *)
Definition no_selectable_text (text : string) : bool :=
  negb (truthy text) || (String.length (strip text) <? 10).

Definition is_image_based_pdf (lib : PdfLib) (pdf_data : string) : bool :=
  match lib_pages lib pdf_data with
  | Ok 0 => false
  | Ok (S _) =>
      match lib_extract_text lib pdf_data 1 with
      | Ok text => no_selectable_text text
      | Raise _ => false
      end
  | Raise _ => false
  end.

(** The OCR of one page: what it appends to [text_content], if anything;
    an error is for the handler of the page. *)
Definition ocr_block (lib : PdfLib) (pdf_data : string) (page_num : nat)
    : outcome (option string) :=
  match lib_convert_from_bytes lib pdf_data page_num with
  | Ok (image :: _) =>
      match lib_image_to_string lib image with
      | Ok ocr_text =>
          if truthy ocr_text && truthy (strip ocr_text) then
            Ok (Some ("## Page " +:+ pretty page_num +:+ " (OCR)" +:+ nl +:+ nl
                        +:+ ocr_text +:+ nl))
          else Ok None
      | Raise e => Raise e
      end
  | Ok [] => Ok None
  | Raise e => Raise e
  end.

(** The body of the loop over the pages, with its [try]: an error of the
    page is printed and the page appends nothing. *)
Definition page_block (lib : PdfLib) (pdf_data : string) (is_scanned : bool)
    (page_num : nat) : option string :=
  let body :=
    if negb is_scanned then
      match lib_extract_text lib pdf_data page_num with
      | Ok page_text =>
          if truthy page_text && truthy (strip page_text) then
            Ok (Some ("## Page " +:+ pretty page_num +:+ nl +:+ nl
                        +:+ page_text +:+ nl))
          else ocr_block lib pdf_data page_num
      | Raise e => Raise e
      end
    else ocr_block lib pdf_data page_num in
  match body with
  | Ok block => block
  | Raise _ => None
  end.

Definition extract_with_pypdf_try (lib : PdfLib) (pdf_data : string)
    : outcome string :=
  match lib_pages lib pdf_data with
  | Ok 0 => Raise (Exception "PDF has no pages")
  | Ok n =>
      let is_scanned := is_image_based_pdf lib pdf_data in
      let text_content := omap (page_block lib pdf_data is_scanned) (seq 1 n) in
      match text_content with
      | [] => Raise (Exception "No text could be extracted from the PDF")
      | _ => Ok (str_join nl text_content)
      end
  | Raise e => Raise e
  end.

Definition extract_with_pypdf (lib : PdfLib) (pdf_data : string)
    : outcome string :=
  match extract_with_pypdf_try lib pdf_data with
  | Ok text => Ok text
  | Raise e => Raise (Exception ("PyPDF extraction failed: " +:+ str_exn e))
  end.

(** The prompt of [generate_summary], an f-string around the preview. *)
Definition summary_prompt (content_preview : string) : string :=
  str_join nl
    [ "";
      "Please provide a comprehensive summary of the following document content.";
      "";
      "The summary should:";
      "- Capture the main topics and key points";
      "- Be 3-5 paragraphs long";
      "- Be clear and easy to understand";
      "- Highlight important information, tables, or data if present";
      "";
      "Document content:";
      content_preview;
      "" ].

(** The preview of a content: its first 10000 characters, and a mark when
    it has more. *)
#[warnings="-abstract-large-number"] Definition content_preview_of (content : string) : string :=
  let content_preview := take_chars 10000 content in
  if 10000 <? String.length content then
    content_preview +:+ nl +:+ nl +:+ "[Content truncated for summarization...]"
  else content_preview.

(** [generate_content prompt] is the text of the response of
    [gemini_model.generate_content], or the error it raises. *)
Definition generate_summary_try (generate_content : string → outcome string)
    (content : string) : outcome string :=
  if String.length (strip content) <? 100 then
    Ok "Document is too short to summarize effectively."
  else
    match generate_content (summary_prompt (content_preview_of content)) with
    | Ok text =>
        if negb (truthy text) then
          Raise (Exception "Gemini returned empty summary")
        else Ok text
    | Raise e => Raise e
    end.

Definition generate_summary (generate_content : string → outcome string)
    (content : string) : outcome string :=
  match generate_summary_try generate_content content with
  | Ok text => Ok text
  | Raise e => Raise (Exception ("Summary generation failed: " +:+ str_exn e))
  end.

(** The extractor of the service over the libraries. *)
Definition service_env (lib : PdfLib)
    (generate_content : string → outcome string)
    (gemini_attempt : string → string → bool → nat → outcome string)
    (seconds : N) : Env :=
  mkEnv (extract_with_pypdf lib) (generate_summary generate_content)
        gemini_attempt seconds.

(** ** Examples for the upload, the loop of the worker and the PyPDF path *)

Definition demo_upload : UploadFile :=
  mkUpload (Some "Report.PDF") (Ok "%PDF-1.4").

Definition demo_upload_text : UploadFile :=
  mkUpload (Some "notes.txt") (Ok "plain text").

(** An entry that no upload writes: its parser is no [ParserType]. *)
Definition demo_bad_entry : StreamEntry :=
  mkEntry demo_id "a.pdf" "tesseract" (pdf_key_of demo_id) "0".

Definition demo_bad_world : World := xadd demo_bad_entry init_world.

(** A status key that holds a text that is no record. *)
Definition demo_unreadable : World :=
  xadd demo_entry (set_key (result_key demo_id) "not json" 3600 init_world).

(** Gemini calls that time out once and answer then. *)
Definition demo_env_retry : Env :=
  mkEnv (λ _, Ok "") (λ _, Ok "")
        (λ _ _ _ attempt,
           if attempt =? 1 then Raise (Timeout "read timed out")
           else Ok "# A title and its text")
        0.

(** Two pages, the first with a selectable text, the second broken, and
    no OCR at hand. *)
Definition demo_lib (text : string) : PdfLib :=
  mkPdfLib (λ _, Ok 2)
           (λ _ page_num,
              if page_num =? 1 then Ok text
              else Raise (Exception "broken page"))
           (λ _ _, Raise (Exception "poppler is not installed"))
           (λ _, Ok "").

(** Two pages, the first without selectable text. *)
Definition demo_scan_lib (text : string) : PdfLib :=
  mkPdfLib (λ _, Ok 2)
           (λ _ page_num, if page_num =? 1 then Ok "" else Ok text)
           (λ _ page_num, Ok ["image " +:+ pretty page_num])
           (λ image, Ok ("text of " +:+ image)).

Definition demo_empty_lib : PdfLib :=
  mkPdfLib (λ _, Ok 0) (λ _ _, Ok "") (λ _ _, Ok []) (λ _, Ok "").

Definition demo_page_text : string :=
  "A first page with enough selectable text to be summarised by the model: it has more than one hundred characters.".

Fixpoint repeat_char (n : nat) (c : ascii) : string :=
  match n with
  | 0 => EmptyString
  | S n' => String c (repeat_char n' c)
  end.

(** A content of 10001 characters. *)
#[warnings="-abstract-large-number"] Definition demo_long (last : string) : string :=
  repeat_char 10000 (ch 97) +:+ last.

(** * Proofs *)

(** ** The JSON text round trip *)

Lemma app_cons c (s t : string) : String c s +:+ t = String c (s +:+ t).
Proof. reflexivity. Qed.

Lemma app_empty (t : string) : EmptyString +:+ t = t.
Proof. reflexivity. Qed.

Lemma append_assoc (a b c : string) : (a +:+ b) +:+ c = a +:+ (b +:+ c).
Proof. induction a as [|x a IH]; [reflexivity|]. rewrite !app_cons. by rewrite IH. Qed.

Lemma lex_outside_empty s str ts : lex Outside s = Some (str, ts) → str = EmptyString.
Proof.
  revert str ts. induction s as [|c s IH]; intros str ts.
  - intros [= <- _]. done.
  - cbn [lex].
    repeat (case_match; try done); eauto;
      match goal with
      | |- ?m ≫= _ = _ → _ => destruct m as [[? ?]|]; [intros [= <- _]|]; done
      end.
Qed.

Lemma lex_escape_char c rest :
  lex InStr (escape_char c +:+ rest)
  = '(str, ts) ← lex InStr rest; Some (String c str, ts).
Proof.
  destruct c as [[] [] [] [] [] [] [] []]; reflexivity.
Qed.

Lemma lex_escape s rest :
  lex InStr (escape s +:+ String c_quote rest)
  = '(_, ts) ← lex Outside rest; Some (s, ts).
Proof.
  induction s as [|c s IH].
  - change (escape "") with EmptyString. rewrite app_empty.
    change (lex InStr (String c_quote rest))
      with ('(_, ts) ← lex Outside rest; Some (EmptyString, ts)).
    destruct (lex Outside rest) as [[? ?]|]; reflexivity.
  - change (escape (String c s)) with (escape_char c +:+ escape s).
    rewrite append_assoc, lex_escape_char, IH.
    destruct (lex Outside rest) as [[? ?]|]; reflexivity.
Qed.

Lemma lex_json_string s rest :
  lex Outside (json_string s +:+ rest)
  = '(_, ts) ← lex Outside rest; Some (EmptyString, TString s :: ts).
Proof.
  unfold json_string. rewrite app_cons.
  change (lex Outside (String c_quote ?x)) with
    ('(str, ts) ← lex InStr x; Some (EmptyString, TString str :: ts)).
  rewrite append_assoc, app_cons, app_empty, lex_escape.
  destruct (lex Outside rest) as [[? ?]|]; reflexivity.
Qed.

Lemma lex_json_item kv rest :
  lex Outside (json_item kv +:+ rest)
  = '(_, ts) ← lex Outside rest; Some (EmptyString, item_tokens kv ++ ts).
Proof.
  unfold json_item, item_tokens.
  rewrite !append_assoc, lex_json_string.
  change (": " +:+ ?x) with (String ":" (String " " x)).
  change (lex Outside (String ":" (String " " ?x)))
    with ('(_, ts) ← lex Outside x; Some (EmptyString, TColon :: ts)).
  rewrite lex_json_string.
  destruct (lex Outside rest) as [[? ?]|]; reflexivity.
Qed.

Lemma lex_json_members d rest :
  lex Outside (json_members d +:+ rest)
  = '(_, ts) ← lex Outside rest; Some (EmptyString, member_tokens d ++ ts).
Proof.
  induction d as [|kv [|kv' d] IH].
  - cbn [json_members member_tokens]. rewrite app_empty.
    destruct (lex Outside rest) as [[str ts]|] eqn:E; [|done].
    by rewrite (lex_outside_empty _ _ _ E).
  - cbn [json_members member_tokens]. apply lex_json_item.
  - change (json_members (kv :: kv' :: d))
      with (json_item kv +:+ ", " +:+ json_members (kv' :: d)).
    change (member_tokens (kv :: kv' :: d))
      with (item_tokens kv ++ TComma :: member_tokens (kv' :: d)).
    rewrite !append_assoc, lex_json_item.
    change (", " +:+ ?x) with (String "," (String " " x)).
    change (lex Outside (String "," (String " " ?x)))
      with ('(_, ts) ← lex Outside x; Some (EmptyString, TComma :: ts)).
    rewrite IH.
    destruct (lex Outside rest) as [[? ?]|]; reflexivity.
Qed.

Lemma parse_member_tokens kv d :
  parse_members (member_tokens (kv :: d) ++ [TRBrace]) = Some (kv :: d).
Proof.
  revert kv. induction d as [|kv' d IH]; intros [k v]; [reflexivity|].
  change (member_tokens ((k, v) :: kv' :: d) ++ [TRBrace])
    with (TString k :: TColon :: TString v :: TComma
            :: (member_tokens (kv' :: d) ++ [TRBrace])).
  cbn [parse_members]. by rewrite IH.
Qed.

Lemma json_loads_dumps d : json_loads (json_dumps d) = Some d.
Proof.
  unfold json_loads, json_dumps.
  change ("{" +:+ ?x) with (String "{" x).
  change (lex Outside (String "{" ?x))
    with ('(_, ts) ← lex Outside x; Some (EmptyString, TLBrace :: ts)).
  rewrite lex_json_members.
  change (lex Outside "}") with (Some (EmptyString, [TRBrace])).
  cbn [mbind option_bind].
  destruct d as [|kv d]; [reflexivity|].
  unfold parse_object.
  pose proof (parse_member_tokens kv d) as H.
  destruct (member_tokens (kv :: d) ++ [TRBrace]) as [|t ts] eqn:E; [done|].
  destruct t; done.
Qed.

Lemma json_dumps_nonempty d : json_dumps d ≠ EmptyString.
Proof. done. Qed.


(** ** Records and their JSON text *)

Lemma ParserType_of_value p : ParserType_of (ParserType_value p) = Some p.
Proof. by destruct p. Qed.

Lemma ProcessingStatus_of_value s :
  ProcessingStatus_of (ProcessingStatus_value s) = Some s.
Proof. by destruct s. Qed.

Lemma ProcessingResult_of_dict_exclude_none r :
  ProcessingResult_of_dict (dict_exclude_none r) = Some r.
Proof.
  destruct r as [j f p s c sm e ca co].
  unfold ProcessingResult_of_dict, dict_exclude_none.
  destruct c, sm, e, co; cbn;
    rewrite ParserType_of_value; cbn;
    rewrite ProcessingStatus_of_value; reflexivity.
Qed.

Lemma decode_result_dumps r :
  decode_result (json_dumps (dict_exclude_none r)) = Some r.
Proof.
  unfold decode_result. rewrite json_loads_dumps. cbn.
  apply ProcessingResult_of_dict_exclude_none.
Qed.

Lemma decode_result_truthy text r : decode_result text = Some r → truthy text = true.
Proof. by destruct text. Qed.

(** ** Keys *)

Lemma result_key_inj j j' : result_key j = result_key j' → j = j'.
Proof. unfold result_key. intros H. by simplify_eq. Qed.

Lemma result_key_not_pdf j j' : result_key j ≠ pdf_key_of j'.
Proof. done. Qed.

(** ** How the services act on the world *)

Lemma bind_run {A B} (m : M A) (f : A → M B) w :
  (m ≫= f) w = match m w with
               | (Ok a, w') => f a w'
               | (Raise e, w') => (Raise e, w')
               end.
Proof. reflexivity. Qed.

Lemma ret_run {A} (a : A) w : (mret a : M A) w = (Ok a, w).
Proof. reflexivity. Qed.

Lemma save_result_run r w : save_result r w = (Ok tt, put r w).
Proof. reflexivity. Qed.

Lemma get_pdf_data_run k w : get_pdf_data k w = (Ok (live w k), log (GET k) w).
Proof. reflexivity. Qed.

Lemma acknowledge_message_run i w : acknowledge_message i w = (Ok tt, ack i w).
Proof. reflexivity. Qed.

Lemma get_result_run j w :
  wf_store w →
  get_result j w = (Ok (stored_result w j), log (GET (result_key j)) w).
Proof.
  intros Hwf. unfold get_result, stored_result. rewrite bind_run.
  unfold redis_get, live, result_key in *.
  destruct (kv w !! ("result:" +:+ j)) as [[v x]|] eqn:E; [|done].
  destruct (clock w <? x)%Z; [|done].
  destruct (Hwf j v x E) as (r & -> & _). cbn [mbind option_bind].
  rewrite decode_result_dumps.
  pose proof (decode_result_dumps r) as Hd. unfold decode_result in Hd.
  destruct (json_loads (json_dumps (dict_exclude_none r))) as [d|]; [|done].
  cbn in Hd. rewrite Hd. done.
Qed.

Lemma tick_tick a b w : tick b (tick a w) = tick (a + b) w.
Proof. unfold tick; cbn. f_equal. lia. Qed.

Lemma tick_0 w : tick 0 w = w.
Proof. destruct w. unfold tick; cbn. f_equal. lia. Qed.

Lemma clock_only_ret {A} (a : A) : clock_only (mret a).
Proof. intros w. cbn. by rewrite tick_0. Qed.

Lemma clock_only_raise {A} e : clock_only (@raise A e).
Proof. intros w. cbn. by rewrite tick_0. Qed.

Lemma clock_only_lift {A} (o : outcome A) : clock_only (lift o).
Proof. intros w. cbn. by rewrite tick_0. Qed.

Lemma clock_only_sleep n : clock_only (sleep n).
Proof. intros w. reflexivity. Qed.

Lemma clock_only_bind {A B} (m : M A) (f : A → M B) :
  clock_only m → (∀ a, clock_only (f a)) → clock_only (m ≫= f).
Proof.
  intros Hm Hf w. rewrite !bind_run, (Hm w).
  destruct (m init_world) as [[a|e] w0]; cbn [fst snd]; [|done].
  rewrite (Hf a (tick _ w)), (Hf a w0). cbn [fst snd].
  by rewrite tick_tick.
Qed.

Lemma clock_only_try_Timeout {A} (m : M A) (h : string → M A) :
  clock_only m → (∀ s, clock_only (h s)) → clock_only (try_except_Timeout m h).
Proof.
  intros Hm Hh w. unfold try_except_Timeout. rewrite (Hm w).
  destruct (m init_world) as [[a|e] w0]; cbn [fst snd]; [done|].
  destruct e; try done.
  rewrite (Hh msg (tick _ w)), (Hh msg w0). cbn [fst snd].
  by rewrite tick_tick.
Qed.

Lemma clock_only_gemini_attempts env pdf f mode retries remaining :
  ∀ attempt, clock_only (gemini_attempts env pdf f mode retries attempt remaining).
Proof.
  induction remaining as [|n IH]; intros attempt; cbn [gemini_attempts].
  - apply clock_only_ret.
  - apply clock_only_try_Timeout.
    + apply clock_only_bind; [apply clock_only_lift|].
      intros text. case_match; apply clock_only_ret.
    + intros _. case_match; [apply clock_only_ret|].
      apply clock_only_bind; [apply clock_only_sleep|]. intros _. apply IH.
Qed.

Lemma clock_only_process_document env pdf p f :
  clock_only (process_document env pdf p f).
Proof.
  unfold process_document.
  apply clock_only_bind; [apply clock_only_sleep|]. intros _.
  destruct p.
  - apply clock_only_bind; [apply clock_only_lift|]. intros c.
    apply clock_only_bind; [apply clock_only_lift|]. intros s.
    apply clock_only_ret.
  - apply clock_only_bind; [apply clock_only_gemini_attempts|]. intros c.
    apply clock_only_bind; [apply clock_only_gemini_attempts|]. intros s.
    apply clock_only_ret.
Qed.

Lemma process_document_run env pdf p f w :
  process_document env pdf p f w
  = (extract env pdf p f, tick (extract_seconds env pdf p f) w).
Proof. apply clock_only_process_document. Qed.

(** ** Histories and lookups under the world transformers *)

Lemma record_history_cons j c tr :
  record_history j (c :: tr)
  = record_history j tr ++ match record_write j c with Some r => [r] | None => [] end.
Proof.
  unfold record_history. cbn [rev]. rewrite omap_app.
  f_equal; cbn; by destruct (record_write j c).
Qed.

Lemma record_write_put j r :
  record_write j (SET (result_key (job_id r)) (json_dumps (dict_exclude_none r)) 3600)
  = if decide (job_id r = j) then Some r else None.
Proof.
  cbn [record_write]. rewrite decode_result_dumps.
  repeat case_decide; try done.
  - by apply result_key_inj in H.
  - by subst.
Qed.

Lemma record_write_pdf j j' v x : record_write j (SET (pdf_key_of j') v x) = None.
Proof. cbn. by case_decide. Qed.

Lemma record_history_put j r w :
  record_history j (trace (put r w))
  = record_history j (trace w) ++ (if decide (job_id r = j) then [r] else []).
Proof.
  unfold put, set_key. cbn [trace].
  rewrite record_history_cons, record_write_put. by case_decide.
Qed.

Lemma record_history_put_eq r w :
  record_history (job_id r) (trace (put r w))
  = record_history (job_id r) (trace w) ++ [r].
Proof. rewrite record_history_put. by case_decide. Qed.

Lemma record_history_put_ne j r w :
  job_id r ≠ j → record_history j (trace (put r w)) = record_history j (trace w).
Proof. intros. rewrite record_history_put. case_decide; [done|]. by rewrite app_nil_r. Qed.

Lemma record_history_log j c w :
  record_write j c = None →
  record_history j (trace (log c w)) = record_history j (trace w).
Proof.
  intros H. cbn [log trace]. rewrite record_history_cons, H. by rewrite app_nil_r.
Qed.

Lemma lookup_put_eq r w :
  kv (put r w) !! result_key (job_id r)
  = Some (json_dumps (dict_exclude_none r), (clock w + 3600)%Z).
Proof. cbn. by rewrite lookup_insert_eq. Qed.

Lemma lookup_put_ne r w k :
  k ≠ result_key (job_id r) → kv (put r w) !! k = kv w !! k.
Proof. intros. cbn. by rewrite lookup_insert_ne. Qed.

Lemma live_log c w k : live (log c w) k = live w k.
Proof. reflexivity. Qed.

Lemma live_ack i w k : live (ack i w) k = live w k.
Proof. reflexivity. Qed.

Lemma live_put_eq r w :
  live (put r w) (result_key (job_id r)) = Some (json_dumps (dict_exclude_none r)).
Proof.
  unfold live. rewrite lookup_put_eq. cbn [put set_key clock].
  by rewrite (proj2 (Z.ltb_lt _ _)) by lia.
Qed.

Lemma live_put_ne r w k :
  k ≠ result_key (job_id r) → live (put r w) k = live w k.
Proof. intros. unfold live. by rewrite lookup_put_ne. Qed.

Lemma stored_result_log c w j : stored_result (log c w) j = stored_result w j.
Proof. reflexivity. Qed.

Lemma stored_result_ack i w j : stored_result (ack i w) j = stored_result w j.
Proof. reflexivity. Qed.

Lemma stored_result_put_eq r w : stored_result (put r w) (job_id r) = Some r.
Proof.
  unfold stored_result. rewrite live_put_eq. cbn. apply decode_result_dumps.
Qed.

Lemma stored_result_put_ne r w j :
  j ≠ job_id r → stored_result (put r w) j = stored_result w j.
Proof.
  intros. unfold stored_result. rewrite live_put_ne; [done|].
  intros ?%result_key_inj. done.
Qed.

(** A live value is a stored value. *)
Lemma live_Some w k v : live w k = Some v → ∃ x, kv w !! k = Some (v, x).
Proof.
  unfold live. destruct (kv w !! k) as [[v' x]|]; [|done].
  case_match; [|done]. intros [= ->]. eauto.
Qed.

(** ** The invariant along the worker's run *)

Lemma in_flight_wf_store j h w : in_flight j h w → wf_store w.
Proof.
  intros H j' v x Hkv. destruct (fl_store _ _ _ H j' v x Hkv) as (r & _ & ? & ?).
  eauto.
Qed.


(** Only the store, the stream, the delivery count and the histories
    matter. *)
Lemma in_flight_ext j h w w' :
  kv w' = kv w → stream w' = stream w → delivered w' = delivered w →
  (∀ j', record_history j' (trace w') = record_history j' (trace w)) →
  in_flight j h w → in_flight j h w'.
Proof.
  intros Hkv Hs Hd Hh [H1 H2 H3 H4 H5 H6 H7 H8].
  split; unfold wf_stream in *; rewrite ?Hkv, ?Hs, ?Hd; try done.
  - intros j' v x. rewrite Hh. apply H3.
  - by rewrite Hh.
  - intros j' ?. rewrite Hh. by apply H6.
  - intros i e ? ?. rewrite Hh. by apply (H7 i).
  - intros j' ?. rewrite Hh. by apply H8.
Qed.

Lemma in_flight_log j h c w :
  (∀ j', record_write j' c = None) →
  in_flight j h w → in_flight j h (log c w).
Proof.
  intros Hc. apply in_flight_ext; try done.
  intros j'. by apply record_history_log.
Qed.

Lemma in_flight_ack j h i w : in_flight j h w → in_flight j h (ack i w).
Proof.
  apply in_flight_ext; try done.
  intros j'. cbn [ack trace]. rewrite record_history_cons. cbn. by rewrite app_nil_r.
Qed.

Lemma in_flight_tick j h n w : in_flight j h w → in_flight j h (tick n w).
Proof. by apply in_flight_ext. Qed.

Lemma in_flight_put j h r w :
  job_id r = j → in_flight j h w → in_flight j (h ++ [r]) (put r w).
Proof.
  intros <- [H1 H2 H3 H4 H5 H6 H7 H8]. split; try done.
  - intros j' v x. destruct (decide (j' = job_id r)) as [->|Hne].
    + rewrite lookup_put_eq, record_history_put_eq. intros [= <- <-].
      exists r. by rewrite last_snoc.
    + rewrite lookup_put_ne, record_history_put_ne by (try done; by intros ?%result_key_inj).
      apply H3.
  - rewrite record_history_put_eq. by rewrite H5.
  - intros j' ?. rewrite record_history_put_ne by done. by apply H6.
  - intros i e Hi Hd. destruct (H7 i e Hi Hd) as [Hne Hr]. split; [done|].
    by rewrite record_history_put_ne.
  - intros j' Hj'. rewrite record_history_put_ne; [by apply H8|].
    intros Heq. by rewrite <- Heq in Hj'.
Qed.

Lemma in_flight_stored j h w r :
  in_flight j h w → stored_result w j = Some r → last h = Some r.
Proof.
  intros H Hs. unfold stored_result in Hs.
  destruct (live w (result_key j)) as [v|] eqn:E; [|done].
  apply live_Some in E as [x E].
  destruct (fl_store _ _ _ H j v x E) as (r' & Hl & -> & _).
  change (decode_result (json_dumps (dict_exclude_none r')) = Some r) in Hs.
  rewrite decode_result_dumps in Hs.
  rewrite <- (fl_history _ _ _ H). congruence.
Qed.

Lemma in_flight_mark_processing j rp w :
  in_flight j [rp] w → job_id rp = j →
  in_flight j (match stored_result w j with
               | Some _ => [rp; set_status PROCESSING rp]
               | None => [rp]
               end) (mark_processing j w)
  ∧ (∀ r, stored_result w j = Some r → r = rp).
Proof.
  intros H Hj.
  assert (∀ r, stored_result w j = Some r → r = rp) as Hr.
  { intros r Hs. apply (in_flight_stored _ _ _ _ H) in Hs. by simplify_eq/=. }
  split; [|done]. unfold mark_processing.
  destruct (stored_result w j) as [r|] eqn:E.
  - rewrite (Hr r eq_refl).
    apply (in_flight_put j [rp]); [done|]. by apply in_flight_log.
  - by apply in_flight_log.
Qed.

Lemma invariant_deliver w e :
  invariant w → stream w !! delivered w = Some e →
  ∃ rp, pending_record e rp ∧ in_flight (e_job_id e) [rp] (deliver w).
Proof.
  intros [H1 H2 H3 H4 H5 H6] He.
  destruct (H5 _ _ He (Nat.le_refl _)) as (rp & Hh & Hp).
  assert (∀ j', record_history j' (trace (deliver w)) = record_history j' (trace w)) as Hh'.
  { intros j'. cbn [deliver trace]. rewrite record_history_cons. cbn. by rewrite app_nil_r. }
  exists rp. split; [done|]. split; cbn [deliver kv stream delivered]; try done.
  - intros j' v x. rewrite Hh'. apply H3.
  - apply list_elem_of_fmap. exists e. split; [done|]. by eapply list_elem_of_lookup_2.
  - by rewrite Hh'.
  - intros j' _. rewrite Hh'. apply H4.
  - intros i e' Hi Hd. rewrite Hh'. split; [|apply (H5 i); [done|lia]].
    intros Heq.
    assert (i = delivered w); [|lia].
    eapply (NoDup_lookup _ _ _ _ H2); rewrite list_lookup_fmap.
    + by rewrite Hi.
    + rewrite He. cbn. by rewrite Heq.
  - intros j' ?. rewrite Hh'. by apply H6.
Qed.

Lemma in_flight_invariant j h w : in_flight j h w → chain h → invariant w.
Proof.
  intros [H1 H2 H3 H4 H5 H6 H7 H8] Hc. split; try done.
  - intros j'. destruct (decide (j' = j)) as [->|Hne]; [by rewrite H5|by apply H6].
  - intros i e Hi Hd. by destruct (H7 i e Hi Hd).
Qed.

(** ** The worker on one entry *)


Lemma wf_store_put r w : wf_store w → wf_store (put r w).
Proof.
  intros Hwf j v x. destruct (decide (j = job_id r)) as [->|Hne].
  - rewrite lookup_put_eq. intros [= <- <-]. eauto.
  - rewrite lookup_put_ne by (by intros ?%result_key_inj). apply Hwf.
Qed.


Lemma wf_store_mark_processing j w : wf_store w → wf_store (mark_processing j w).
Proof.
  intros Hwf. unfold mark_processing. destruct (stored_result w j).
  - by apply wf_store_put.
  - done.
Qed.


Lemma process_message_except_run i j e w :
  wf_store w →
  process_message_except i j e w = (Ok tt, ack i (record_failure j e w)).
Proof.
  intros Hwf. unfold process_message_except, record_failure.
  rewrite bind_run, get_result_run by done.
  by destruct (stored_result w j).
Qed.

Lemma process_message_try_run env i j f p k w :
  wf_store w →
  process_message_try env i j f p k w = try_outcome env i j f p k w.
Proof.
  intros Hwf. unfold process_message_try, try_outcome, mark_processing.
  rewrite bind_run, get_result_run by done.
  destruct (stored_result w j) as [r|]; rewrite !bind_run;
    rewrite ?save_result_run, ?ret_run, ?bind_run, get_pdf_data_run;
    rewrite !(live_log _ _ k).
  all: match goal with
       | |- context [live ?w ?k'] => destruct (live w k') as [pdf|]
       end; [|reflexivity].
  all: destruct (truthy pdf); [|reflexivity].
  all: rewrite bind_run, process_document_run.
  all: destruct (extract env pdf p f) as [[c [s|]]|e]; reflexivity.
Qed.

Lemma process_message_run env i e p w :
  wf_store w → ParserType_of (e_parser e) = Some p →
  process_message env i e w
  = match try_outcome env i (e_job_id e) (e_filename e) p (e_pdf_key e) w with
    | (Ok a, w') => (Ok a, w')
    | (Raise ex, w') => (Ok tt, ack i (record_failure (e_job_id e) ex w'))
    end.
Proof.
  intros Hwf Hp. unfold process_message, ParserType_call. rewrite Hp.
  rewrite bind_run, ret_run. unfold try_except.
  rewrite process_message_try_run by done.
  assert (wf_store (log (GET (e_pdf_key e)) (mark_processing (e_job_id e) w))) as Hwf1.
  { by apply wf_store_mark_processing. }
  unfold try_outcome. cbn zeta.
  destruct (live _ _) as [pdf|]; [|by rewrite process_message_except_run].
  destruct (truthy pdf); [|by rewrite process_message_except_run].
  destruct (extract _ _ _ _) as [[c [s|]]|ex]; [done| |];
    by rewrite process_message_except_run.
Qed.

Lemma gemini_attempts_Some env pdf f mode retries remaining :
  ∀ attempt w o w',
    attempt + remaining = S retries → remaining ≠ 0 →
    gemini_attempts env pdf f mode retries attempt remaining w = (Ok o, w') →
    is_Some o.
Proof.
  induction remaining as [|n IH]; intros attempt w o w' Hsum Hne; [done|].
  cbn [gemini_attempts]. unfold try_except_Timeout. rewrite bind_run.
  unfold lift.
  destruct (env_gemini_attempt env pdf f mode attempt) as [text|e];
    cbn beta iota.
  - destruct (negb (truthy text) || _); rewrite ret_run; intros [= <- _]; eauto.
  - destruct e; try done.
    destruct (attempt =? retries) eqn:E.
    + rewrite ret_run. intros [= <- _]. eauto.
    + apply Nat.eqb_neq in E. rewrite bind_run. cbn [sleep]. cbn beta iota.
      apply IH; lia.
Qed.

Lemma extract_Some env pdf p f c s :
  extract env pdf p f = Ok (c, s) → is_Some c ∧ is_Some s.
Proof.
  unfold extract, process_document. rewrite bind_run. cbn [sleep].
  cbn beta iota. destruct p.
  - rewrite bind_run. unfold lift.
    destruct (env_extract_with_pypdf env pdf) as [t|]; [|done].
    cbn beta iota. rewrite bind_run.
    destruct (env_generate_summary env t) as [t'|]; [|done].
    cbn beta iota. rewrite ret_run. intros [= <- <-]. eauto.
  - rewrite bind_run. unfold process_with_gemini.
    destruct (gemini_attempts env pdf f false 3 1 3 _) as [[o|] w1] eqn:E1; [|done].
    rewrite bind_run.
    destruct (gemini_attempts env pdf f true 3 1 3 _) as [[o'|] w2] eqn:E2; [|done].
    rewrite ret_run. intros [= <- <-].
    apply gemini_attempts_Some in E1; [|done..].
    apply gemini_attempts_Some in E2; done.
Qed.

Lemma pending_record_consistent e rp : pending_record e rp → consistent rp.
Proof. intros (_ & _ & _ & Hs & ? & ? & ? & ?). unfold consistent. by rewrite Hs. Qed.

Lemma chain_open e rp h : pending_record e rp → open_history rp h → chain h.
Proof.
  intros Hp Hh. pose proof (pending_record_consistent _ _ Hp) as Hc.
  destruct Hp as (_ & _ & _ & Hs & ? & ? & ? & ?).
  assert (consistent (set_status PROCESSING rp)) by (unfold consistent; by cbn).
  destruct Hh as [-> | ->]; split; cbn; rewrite ?Hs; try done;
    by repeat constructor.
Qed.

Lemma chain_closed e rp h r :
  pending_record e rp → open_history rp h →
  is_terminal (status r) = true → consistent r → chain (h ++ [r]).
Proof.
  intros Hp Hh Ht Hr. destruct (chain_open _ _ _ Hp Hh) as [Hf Hc].
  split; [|by apply Forall_app; split; [|repeat constructor]].
  destruct Hp as (_ & _ & _ & Hs & _).
  destruct Hh as [-> | ->]; cbn; rewrite ?Hs; by destruct (status r).
Qed.

Lemma in_flight_record_failure e rp h ex w :
  pending_record e rp → open_history rp h →
  in_flight (e_job_id e) h w →
  ∃ h', in_flight (e_job_id e) h' (record_failure (e_job_id e) ex w) ∧ chain h'.
Proof.
  intros Hp Hh Hfl. unfold record_failure.
  destruct (stored_result w (e_job_id e)) as [r|] eqn:E.
  - pose proof (in_flight_stored _ _ _ _ Hfl E) as Hlast.
    assert (job_id r = e_job_id e ∧ content r = None ∧ summary r = None) as (Hj & Hc & Hs).
    { destruct Hp as (? & _ & _ & _ & ? & ? & _).
      destruct Hh as [-> | ->]; cbn in Hlast; by simplify_eq. }
    exists (h ++ [mark_failed ex (clock w) r]). split.
    + apply in_flight_put; [done|]. by apply in_flight_log.
    + eapply chain_closed; [done..|]. unfold consistent. cbn. eauto.
  - exists h. split; [by apply in_flight_log|]. by eapply chain_open.
Qed.

Lemma process_message_spec env i e rp w :
  in_flight (e_job_id e) [rp] w → pending_record e rp →
  ∃ w' h, process_message env i e w = (Ok tt, ack i w')
          ∧ in_flight (e_job_id e) h w' ∧ chain h.
Proof.
  intros Hfl Hp.
  assert (ParserType_of (e_parser e) = Some (parser rp)) as Hparser.
  { destruct Hp as (_ & _ & <- & _). apply ParserType_of_value. }
  assert (job_id rp = e_job_id e) as Hj by apply Hp.
  rewrite (process_message_run _ _ _ _ _ (in_flight_wf_store _ _ _ Hfl) Hparser).
  destruct (in_flight_mark_processing _ _ _ Hfl Hj) as [Hfl0 Hr0].
  set (h0 := match stored_result w (e_job_id e) with
             | Some _ => [rp; set_status PROCESSING rp]
             | None => [rp]
             end) in *.
  assert (open_history rp h0) as Hh0.
  { unfold h0, open_history. destruct (stored_result w (e_job_id e)); eauto. }
  unfold try_outcome. cbn zeta.
  set (w1 := log (GET (e_pdf_key e)) (mark_processing (e_job_id e) w)).
  assert (in_flight (e_job_id e) h0 w1) as Hfl1 by by apply in_flight_log.
  destruct (live w1 (e_pdf_key e)) as [pdf|];
    [|destruct (in_flight_record_failure _ _ _ missing_payload _ Hp Hh0 Hfl1)
        as (h' & ? & ?); eauto].
  destruct (truthy pdf);
    [|destruct (in_flight_record_failure _ _ _ missing_payload _ Hp Hh0 Hfl1)
        as (h' & ? & ?); eauto].
  set (w2 := tick _ w1).
  assert (in_flight (e_job_id e) h0 w2) as Hfl2 by by apply in_flight_tick.
  destruct (extract env pdf (parser rp) (e_filename e)) as [[c [s|]]|ex] eqn:Ex.
  - apply extract_Some in Ex as [Hc _].
    eexists _, _. split; [done|]. split.
    + by apply in_flight_put.
    + eapply chain_closed; [done..|]. unfold consistent. cbn. eauto.
  - destruct (in_flight_record_failure _ _ _
                (TypeError "object of type 'NoneType' has no len()") _ Hp Hh0 Hfl2)
      as (h' & ? & ?); eauto.
  - destruct (in_flight_record_failure _ _ _ ex _ Hp Hh0 Hfl2) as (h' & ? & ?); eauto.
Qed.

(** ** The invariant of the system *)

Lemma add_job_to_queue_run j f d p w :
  add_job_to_queue j f d p w
  = (Ok (length (stream w)),
     put (new_record j f p (clock w))
         (xadd (new_entry j f p (clock w)) (set_key (pdf_key_of j) d 3600 w))).
Proof. reflexivity. Qed.

Lemma read_from_stream_run w :
  read_from_stream 5000 w
  = match stream w !! delivered w with
    | Some e => (Ok [(delivered w, e)], deliver w)
    | None => (Ok [], log XREADGROUP (tick 5 w))
    end.
Proof.
  unfold read_from_stream, try_except, redis_xreadgroup.
  by destruct (stream w !! delivered w).
Qed.

Lemma worker_iteration_idle env w :
  stream w !! delivered w = None →
  worker_iteration env w = (Ok tt, log XREADGROUP (tick 5 w)).
Proof.
  intros H. unfold worker_iteration, try_except.
  by rewrite bind_run, read_from_stream_run, H.
Qed.

Lemma worker_iteration_deliver env w e w' :
  stream w !! delivered w = Some e →
  process_message env (delivered w) e (deliver w) = (Ok tt, w') →
  worker_iteration env w = (Ok tt, w').
Proof.
  intros H Hp. unfold worker_iteration, try_except.
  rewrite bind_run, read_from_stream_run, H. cbn [for_each].
  by rewrite bind_run, Hp.
Qed.

Lemma invariant_ext w w' :
  kv w' = kv w → stream w' = stream w → delivered w' = delivered w →
  (∀ j, record_history j (trace w') = record_history j (trace w)) →
  invariant w → invariant w'.
Proof.
  intros Hkv Hs Hd Hh [H1 H2 H3 H4 H5 H6].
  split; unfold wf_stream in *; rewrite ?Hkv, ?Hs, ?Hd; try done.
  - intros j v x. rewrite Hh. apply H3.
  - intros j. rewrite Hh. apply H4.
  - intros i e ? ?. rewrite Hh. by apply (H5 i).
  - intros j ?. rewrite Hh. by apply H6.
Qed.

Lemma invariant_init : invariant init_world.
Proof.
  split; cbn; try done. constructor.
Qed.

Lemma invariant_wait n w : invariant w → invariant (exec (Wait n) w).
Proof. by apply invariant_ext. Qed.

Lemma invariant_work env w : invariant w → invariant (exec (Work env) w).
Proof.
  intros Hinv. unfold exec. cbn [run_op].
  destruct (stream w !! delivered w) as [e|] eqn:E.
  - destruct (invariant_deliver _ _ Hinv E) as (rp & Hp & Hfl).
    destruct (process_message_spec env (delivered w) _ _ _ Hfl Hp)
      as (w' & h & Hrun & Hfl' & Hc).
    rewrite (worker_iteration_deliver _ _ _ _ E Hrun). cbn [snd].
    eapply in_flight_invariant; [|done]. by apply in_flight_ack.
  - rewrite worker_iteration_idle by done. cbn [snd].
    revert Hinv. apply invariant_ext; try done.
    intros j. cbn [log trace]. rewrite record_history_cons. cbn. by rewrite app_nil_r.
Qed.

Lemma invariant_enqueue j f d p w :
  invariant w → j ∉ (e_job_id <$> stream w) →
  invariant (exec (Enqueue j f d p) w).
Proof.
  intros [H1 H2 H3 H4 H5 H6] Hnew. unfold exec. cbn [run_op].
  rewrite bind_run, add_job_to_queue_run. cbn beta iota.
  rewrite ret_run. cbn [snd].
  set (rp := new_record j f p (clock w)).
  set (e := new_entry j f p (clock w)).
  set (w1 := xadd e (set_key (pdf_key_of j) d 3600 w)).
  assert (∀ j', record_history j' (trace w1) = record_history j' (trace w)) as Hh1.
  { intros j'. unfold w1. cbn [xadd set_key trace].
    rewrite !record_history_cons, record_write_pdf. cbn. by rewrite !app_nil_r. }
  assert (∀ j', j' ≠ j →
            record_history j' (trace (put rp w1)) = record_history j' (trace w)) as Hne.
  { intros j' ?. rewrite record_history_put_ne by (cbn; congruence). apply Hh1. }
  assert (record_history j (trace (put rp w1)) = [rp]) as Heq.
  { rewrite record_history_put, Hh1, (H6 j Hnew). by case_decide. }
  assert (stream (put rp w1) = stream w ++ [e]) as Hs by done.
  split.
  - unfold wf_stream. intros i e'. rewrite Hs. intros [[_ Hi] | [_ <-]]%lookup_snoc_Some.
    + exact (H1 i e' Hi).
    + split; [by exists p|done].
  - rewrite Hs, fmap_app. apply NoDup_app. split; [done|]. split.
    + intros x Hx [->|[]%elem_of_nil]%elem_of_cons. done.
    + apply NoDup_singleton.
  - intros j' v x. destruct (decide (j' = j)) as [->|Hj'].
    + rewrite Heq. change j with (job_id rp) at 1.
      rewrite lookup_put_eq. intros [= <- _]. by exists rp.
    + rewrite Hne by done. rewrite lookup_put_ne by (intros ?%result_key_inj; done).
      unfold w1. cbn [xadd kv set_key]. rewrite lookup_insert_ne by done. apply H3.
  - intros j'. destruct (decide (j' = j)) as [->|Hj'].
    + rewrite Heq. split; [done|]. by repeat constructor.
    + rewrite Hne by done. apply H4.
  - intros i e'. rewrite Hs. intros [[_ Hi] | [_ <-]]%lookup_snoc_Some Hd.
    + rewrite Hne; [by apply (H5 i)|].
      intros Hj. apply Hnew. rewrite <- Hj.
      apply list_elem_of_fmap. exists e'. split; [done|].
      by eapply list_elem_of_lookup_2.
    + exists rp. split; [done|]. by repeat split.
  - intros j'. rewrite Hs, fmap_app. intros [Hj1 Hj2]%not_elem_of_app.
    rewrite Hne; [by apply H6|]. intros ->. apply Hj2. apply list_elem_of_here.
Qed.

Lemma reachable_invariant w : reachable w → invariant w.
Proof.
  induction 1.
  - apply invariant_init.
  - by apply invariant_enqueue.
  - by apply invariant_work.
  - by apply invariant_wait.
Qed.

(** ** The two ways an entry ends *)

Lemma stored_result_job_id w j r :
  wf_store w → stored_result w j = Some r → job_id r = j.
Proof.
  intros Hwf Hs. unfold stored_result in Hs.
  destruct (live w (result_key j)) as [v|] eqn:E; [|done].
  apply live_Some in E as [x E]. destruct (Hwf j v x E) as (r' & -> & Hj).
  change (decode_result (json_dumps (dict_exclude_none r')) = Some r) in Hs.
  rewrite decode_result_dumps in Hs. congruence.
Qed.

Lemma try_outcome_wf env i j f p k w o w' :
  wf_store w → try_outcome env i j f p k w = (o, w') → wf_store w'.
Proof.
  intros Hwf. unfold try_outcome. cbn zeta.
  assert (wf_store (log (GET k) (mark_processing j w))) as Hwf1
    by by apply wf_store_mark_processing.
  destruct (live _ _) as [pdf|]; [|by intros [= _ <-]].
  destruct (truthy pdf); [|by intros [= _ <-]].
  destruct (extract _ _ _ _) as [[c [s|]]|ex]; intros [= _ <-]; try done.
  by apply wf_store_put.
Qed.

Lemma kv_mark_processing j w k :
  k ≠ result_key j → wf_store w → kv (mark_processing j w) !! k = kv w !! k.
Proof.
  intros Hk Hwf. unfold mark_processing.
  destruct (stored_result w j) as [r|] eqn:E; [|done].
  rewrite lookup_put_ne; [done|]. cbn [set_status job_id].
  by rewrite (stored_result_job_id _ _ _ Hwf E).
Qed.

Lemma live_mark_processing j w k :
  k ≠ result_key j → wf_store w → live (mark_processing j w) k = live w k.
Proof.
  intros Hk Hwf. unfold live at 1. rewrite kv_mark_processing by done.
  unfold mark_processing. by destruct (stored_result w j).
Qed.

Lemma kv_record_failure j ex w k :
  k ≠ result_key j → wf_store w → kv (record_failure j ex w) !! k = kv w !! k.
Proof.
  intros Hk Hwf. unfold record_failure.
  destruct (stored_result w j) as [r|] eqn:E; [|done].
  rewrite lookup_put_ne; [done|]. cbn [mark_failed set_completed_at set_error set_status job_id].
  by rewrite (stored_result_job_id _ _ _ Hwf E).
Qed.

(** What an iteration of the worker does to an entry it receives, seen
    from the world before the read. *)
Lemma work_deliver env w e :
  invariant w → stream w !! delivered w = Some e →
  ∃ p rp,
    ParserType_of (e_parser e) = Some p ∧ pending_record e rp ∧ parser rp = p
    ∧ in_flight (e_job_id e) [rp] (deliver w)
    ∧ e_pdf_key e = pdf_key_of (e_job_id e)
    ∧ read_from_stream 5000 w = (Ok [(delivered w, e)], deliver w)
    ∧ run_op (Work env) w = process_message env (delivered w) e (deliver w)
    ∧ process_message env (delivered w) e (deliver w)
      = match try_outcome env (delivered w) (e_job_id e) (e_filename e) p
                          (e_pdf_key e) (deliver w) with
        | (Ok a, w') => (Ok a, w')
        | (Raise ex, w') =>
            (Ok tt, ack (delivered w) (record_failure (e_job_id e) ex w'))
        end.
Proof.
  intros Hinv He.
  destruct (invariant_deliver _ _ Hinv He) as (rp & Hp & Hfl).
  assert (ParserType_of (e_parser e) = Some (parser rp)) as Hparser.
  { destruct Hp as (_ & _ & <- & _). apply ParserType_of_value. }
  exists (parser rp), rp.
  destruct (process_message_spec env (delivered w) _ _ _ Hfl Hp)
    as (w' & h & Hrun & _).
  split_and!; try done.
  - by destruct (inv_stream _ Hinv _ _ He).
  - by rewrite read_from_stream_run, He.
  - cbn [run_op]. rewrite (worker_iteration_deliver _ _ _ _ He Hrun). done.
  - apply process_message_run; [|done]. by eapply in_flight_wf_store.
Qed.

Lemma stored_result_deliver w j : stored_result (deliver w) j = stored_result w j.
Proof. reflexivity. Qed.

Lemma work_success env w e p pdf c s :
  invariant w → stream w !! delivered w = Some e →
  ParserType_of (e_parser e) = Some p →
  live w (e_pdf_key e) = Some pdf → truthy pdf = true →
  extract env pdf p (e_filename e) = Ok (c, s) →
  let w2 := tick (extract_seconds env pdf p (e_filename e))
              (log (GET (e_pdf_key e)) (mark_processing (e_job_id e) (deliver w))) in
  run_op (Work env) w
  = (Ok tt,
     ack (delivered w)
       (put (completed_record (e_job_id e) (e_filename e) p c s
               (stored_result w (e_job_id e)) (clock w2)) w2)).
Proof.
  intros Hinv He Hp Hlive Htruthy Hex w2.
  destruct (work_deliver env _ _ Hinv He)
    as (p' & rp & Hp' & Hrp & _ & Hfl & Hk & _ & -> & ->).
  assert (p' = p) as -> by congruence.
  unfold try_outcome. cbn zeta.
  rewrite live_log, live_mark_processing;
    [|rewrite Hk; by apply not_eq_sym, result_key_not_pdf|by eapply in_flight_wf_store].
  change (live (deliver w) (e_pdf_key e)) with (live w (e_pdf_key e)).
  rewrite Hlive, Htruthy, Hex.
  destruct (extract_Some _ _ _ _ _ _ Hex) as [_ [s' ->]]. done.
Qed.

(** * The claims *)

(** C1.  For every entry the worker receives, in any world the system
    reaches: the read hands the entry to [process_message], which returns
    normally whatever the extractor does, and the last command it sends to
    Redis is the acknowledgment of that entry, which leaves the pending
    list.  The iteration of the worker loop is exactly that run.  (Redis
    commands do not fail in this model, so this covers every path of
    [process_message] but the infrastructure failures.) *)
Theorem worker_acknowledges_every_entry (env : Env) (w : World) (e : StreamEntry) :
  reachable w →
  stream w !! delivered w = Some e →
  read_from_stream 5000 w = (Ok [(delivered w, e)], deliver w)
  ∧ ∃ w',
      process_message env (delivered w) e (deliver w) = (Ok tt, w')
      ∧ worker_iteration env w = (Ok tt, w')
      ∧ (∃ tr, trace w' = XACK (delivered w) :: tr)
      ∧ delivered w ∉ pel w'.
Proof.
  intros Hr He. pose proof (reachable_invariant _ Hr) as Hinv.
  destruct (invariant_deliver _ _ Hinv He) as (rp & Hp & Hfl).
  destruct (process_message_spec env (delivered w) _ _ _ Hfl Hp)
    as (w' & h & Hrun & _).
  split; [by rewrite read_from_stream_run, He|].
  exists (ack (delivered w) w'). split_and!; [done| |by eexists|].
  - by apply (worker_iteration_deliver _ _ e).
  - cbn [ack pel]. rewrite elem_of_difference. intros [_ Hn]. apply Hn.
    by apply elem_of_singleton.
Qed.



(** C2 (amended).  When the [try] block of [process_message] fails on an
    entry the worker received, and in particular when the payload is absent
    at processing time, the handler reads the status record again: if the
    record is still there it is written back with status failed, the text of
    the error and [completed_at] set to now, and nothing else changed; if it
    is gone nothing is written.  Either way the entry is acknowledged, as
    the last command. *)
Theorem failure_recorded_when_record_present
    (env : Env) (w : World) (e : StreamEntry) (p : ParserType) :
  reachable w →
  stream w !! delivered w = Some e →
  ParserType_of (e_parser e) = Some p →
  let i := delivered w in
  let j := e_job_id e in
  let block :=
    process_message_try env i j (e_filename e) p (e_pdf_key e) (deliver w) in
  (live w (e_pdf_key e) = None → fst block = Raise missing_payload)
  ∧ ∀ ex we, block = (Raise ex, we) →
      ∃ w', process_message env i e (deliver w) = (Ok tt, w')
        ∧ (i ∉ pel w')
        ∧ match stored_result we j with
          | Some r =>
              let r' := mark_failed ex (clock we) r in
              stored_result w' j = Some r'
              ∧ r' = mkResult (job_id r) (filename r) (parser r) FAILED
                              (content r) (summary r) (Some (str_exn ex))
                              (created_at r)
                              (Some (now_utc_isoformat (clock w')))
              ∧ trace w' = XACK i
                  :: SET (result_key j) (json_dumps (dict_exclude_none r')) 3600
                  :: GET (result_key j) :: trace we
          | None =>
              kv w' = kv we
              ∧ trace w' = XACK i :: GET (result_key j) :: trace we
          end.
Proof.
  intros Hr He Hp i j block. pose proof (reachable_invariant _ Hr) as Hinv.
  destruct (work_deliver env _ _ Hinv He)
    as (p' & rp & Hp' & Hrp & _ & Hfl & Hk & _ & _ & Hrun).
  assert (p' = p) as -> by congruence.
  pose proof (in_flight_wf_store _ _ _ Hfl) as Hwf.
  assert (block = try_outcome env i j (e_filename e) p (e_pdf_key e) (deliver w))
    as Hblock by by apply process_message_try_run.
  split.
  - intros Hlive. rewrite Hblock. unfold try_outcome. cbn zeta.
    rewrite live_log, live_mark_processing;
      [|rewrite Hk; by apply not_eq_sym, result_key_not_pdf|done].
    change (live (deliver w) (e_pdf_key e)) with (live w (e_pdf_key e)).
    by rewrite Hlive.
  - intros ex we Hraise. rewrite Hblock in Hraise.
    pose proof (try_outcome_wf _ _ _ _ _ _ _ _ _ Hwf Hraise) as Hwfe.
    fold i j in Hrun. rewrite Hraise in Hrun.
    exists (ack i (record_failure j ex we)). split; [done|]. split.
    { cbn [ack pel]. rewrite elem_of_difference. intros [_ Hn]. apply Hn.
      by apply elem_of_singleton. }
    unfold record_failure. destruct (stored_result we j) as [r|] eqn:E.
    + pose proof (stored_result_job_id _ _ _ Hwfe E) as Hj.
      cbn zeta. split_and!; [|done|by rewrite <- Hj].
      rewrite stored_result_ack. rewrite <- Hj at 2.
      apply (stored_result_put_eq (mark_failed ex (clock we) r)).
    + done.
Qed.

(** C6 (amended).  The payload of a job is stored under ['pdf:'] followed
    by the job id and its status record under ['result:'] followed by the
    job id; enqueueing a job writes these two keys and no other; every
    status write is a [SET] of the ['result:'] key with [EX 3600]; and a key
    set with [EX 3600] is readable for one hour from the write, not
    longer. *)
Theorem store_keys_and_ttl :
  (∀ j f d p w, let w' := exec (Enqueue j f d p) w in
     kv w' !! ("pdf:" +:+ j) = Some (d, (clock w + 3600)%Z)
     ∧ kv w' !! ("result:" +:+ j)
       = Some (json_dumps (dict_exclude_none (new_record j f p (clock w))),
               (clock w + 3600)%Z)
     ∧ ∀ k, k = "pdf:" +:+ j ∨ k = "result:" +:+ j ∨ kv w' !! k = kv w !! k)
  ∧ (∀ r w, let w' := (save_result r w).2 in
       kv w' !! ("result:" +:+ job_id r)
       = Some (json_dumps (dict_exclude_none r), (clock w + 3600)%Z)
       ∧ trace w' = SET ("result:" +:+ job_id r)
                        (json_dumps (dict_exclude_none r)) 3600 :: trace w)
  ∧ (∀ key value w (n : N),
       live (tick (Z.of_N n) (redis_set key value 3600 w).2) key
       = if (n <? 3600)%N then Some value else None).
Proof.
  split_and!.
  - intros j f d p w w'. unfold w', exec. cbn [run_op].
    rewrite bind_run, add_job_to_queue_run. cbn beta iota.
    rewrite ret_run. cbn [snd]. split_and!.
    + rewrite lookup_put_ne by done. cbn. by rewrite lookup_insert_eq.
    + change ("result:" +:+ j) with (result_key (job_id (new_record j f p (clock w)))).
      by rewrite lookup_put_eq.
    + intros k.
      destruct (decide (k = "pdf:" +:+ j)) as [|H1]; [by left|].
      destruct (decide (k = "result:" +:+ j)) as [|H2]; [by right; left|].
      right; right. rewrite lookup_put_ne by done. cbn.
      by rewrite lookup_insert_ne.
  - intros r w w'. split; [|done]. apply lookup_put_eq.
  - intros key value w n. unfold live. cbn. rewrite lookup_insert_eq.
    destruct (N.ltb_spec n 3600).
    + by rewrite (proj2 (Z.ltb_lt _ _)) by lia.
    + by rewrite (proj2 (Z.ltb_ge _ _)) by lia.
Qed.



(** ** The system as a whole never fails and keeps the store well formed *)


Lemma worker_iteration_ok env w : (worker_iteration env w).1 = Ok tt.
Proof.
  unfold worker_iteration, try_except.
  match goal with
  | |- (match ?x with _ => _ end).1 = _ => by destruct x as [[[]|ex] w']
  end.
Qed.


Lemma run_op_ok o w : (run_op o w).1 = Ok tt.
Proof.
  destruct o; cbn [run_op]; [done|apply worker_iteration_ok|done].
Qed.



Lemma exec_all_cons o ops w : exec_all (o :: ops) w = exec_all ops (exec o w).
Proof.
  unfold exec_all, exec, run_ops. cbn [for_each]. rewrite bind_run.
  pose proof (run_op_ok o w) as Hok.
  by destruct (run_op o w) as [[[]|ex] w'].
Qed.




(** ** The clock never goes back *)

Lemma clock_mono_ret {A} (a : A) : clock_mono (mret a).
Proof. intros w. cbn. lia. Qed.


Lemma clock_mono_lift {A} (o : outcome A) : clock_mono (lift o).
Proof. intros w. cbn. lia. Qed.

Lemma clock_mono_sleep n : (0 ≤ n)%Z → clock_mono (sleep n).
Proof. intros Hn w. cbn. lia. Qed.

Lemma clock_mono_bind {A B} (m : M A) (f : A → M B) :
  clock_mono m → (∀ a, clock_mono (f a)) → clock_mono (m ≫= f).
Proof.
  intros Hm Hf w. rewrite bind_run. specialize (Hm w).
  destruct (m w) as [[a|e] w1]; cbn [snd] in *; [|done].
  specialize (Hf a w1). lia.
Qed.


Lemma clock_mono_try_Timeout {A} (m : M A) (h : string → M A) :
  clock_mono m → (∀ s, clock_mono (h s)) → clock_mono (try_except_Timeout m h).
Proof.
  intros Hm Hh w. unfold try_except_Timeout. specialize (Hm w).
  destruct (m w) as [[a|e] w1]; cbn [snd] in *; [done|].
  destruct e; try done. specialize (Hh msg w1). lia.
Qed.






Lemma clock_mono_gemini_attempts env pdf f mode retries remaining :
  ∀ attempt, clock_mono (gemini_attempts env pdf f mode retries attempt remaining).
Proof.
  induction remaining as [|n IH]; intros attempt; cbn [gemini_attempts].
  - apply clock_mono_ret.
  - apply clock_mono_try_Timeout.
    + apply clock_mono_bind; [apply clock_mono_lift|].
      intros text. case_match; apply clock_mono_ret.
    + intros _. case_match; [apply clock_mono_ret|].
      apply clock_mono_bind; [by apply clock_mono_sleep|]. intros _. apply IH.
Qed.

Lemma clock_mono_process_document env pdf p f :
  clock_mono (process_document env pdf p f).
Proof.
  unfold process_document.
  apply clock_mono_bind; [apply clock_mono_sleep; lia|]. intros _.
  destruct p.
  - apply clock_mono_bind; [apply clock_mono_lift|]. intros c.
    apply clock_mono_bind; [apply clock_mono_lift|]. intros s.
    apply clock_mono_ret.
  - apply clock_mono_bind; [apply clock_mono_gemini_attempts|]. intros c.
    apply clock_mono_bind; [apply clock_mono_gemini_attempts|]. intros s.
    apply clock_mono_ret.
Qed.





(** ** The polling loop *)







(** C8.  A status query whose job id is empty, blank or refused by the
    UUID constructor signals the validation error 400 at once, for any
    fuel, and leaves the world as it was: no command was sent to Redis. *)
Theorem malformed_job_id_rejected_without_read
    (fuel : nat) (others : nat → list op) (job_id : string) (w : World) :
  truthy job_id = false ∨ truthy (strip job_id) = false
  ∨ uuid_UUID job_id = false →
  ∃ detail,
    get_job_status fuel others job_id w
    = Some (Raise (HTTPException 400 detail), w).
Proof.
  unfold get_job_status, status_query. intros [H | [H | H]].
  - rewrite H. eauto.
  - rewrite H. rewrite orb_true_r. eauto.
  - rewrite H. destruct (negb (truthy job_id) || _); eauto.
Qed.

Lemma gemini_attempts_all_timeouts env pdf f mode retries remaining :
  ∀ attempt w,
    attempt + remaining = S retries → remaining ≠ 0 →
    (∀ a, attempt ≤ a ≤ retries →
       ∃ m, env_gemini_attempt env pdf f mode a = Raise (Timeout m)) →
    gemini_attempts env pdf f mode retries attempt remaining w
    = (Ok (Some (timed_out_message retries)),
       tick (3 * Z.of_nat (remaining - 1)) w).
Proof.
  induction remaining as [|n IH]; intros attempt w Hsum Hne Hto; [done|].
  cbn [gemini_attempts]. unfold try_except_Timeout. rewrite bind_run.
  unfold lift. destruct (Hto attempt ltac:(lia)) as [m ->]. cbn beta iota.
  destruct (Nat.eqb_spec attempt retries) as [->|Hneq].
  - assert (n = 0) as -> by lia. rewrite ret_run. cbn. by rewrite tick_0.
  - rewrite bind_run. cbn [sleep]. cbn beta iota.
    rewrite IH; [|lia|lia|intros a Ha; apply Hto; lia].
    change (mkWorld (kv w) (stream w) (delivered w) (pel w) (clock w + 3) (trace w))
      with (tick 3 w).
    rewrite tick_tick. do 2 f_equal. lia.
Qed.

(** C9.  When every attempt of the Gemini path times out, for the content
    and for the summary, [process_with_gemini] returns the fixed text as a
    value and raises nothing; the worker, on an entry for the gemini parser
    whose payload is there, then leaves the job completed, with that text
    as content and as summary and no error. *)
Theorem gemini_timeouts_complete_the_job
    (env : Env) (pdf f : string) :
  (∀ mode a, 1 ≤ a ≤ 3 →
     ∃ m, env_gemini_attempt env pdf f mode a = Raise (Timeout m)) →
  timed_out_message 3
  = "Processing timed out after 3 attempts. The PDF may be too large or complex."
  ∧ (∀ mode w, ∃ w',
       process_with_gemini env pdf f mode 3 w
       = (Ok (Some (timed_out_message 3)), w'))
  ∧ (∀ w e,
       reachable w → stream w !! delivered w = Some e →
       e_parser e = "gemini" → e_filename e = f →
       live w (e_pdf_key e) = Some pdf → truthy pdf = true →
       ∃ r, stored_result (exec (Work env) w) (e_job_id e) = Some r
            ∧ status r = COMPLETED
            ∧ content r = Some (timed_out_message 3)
            ∧ summary r = Some (timed_out_message 3)
            ∧ error r = None).
Proof.
  intros Hto.
  assert (∀ mode w,
            process_with_gemini env pdf f mode 3 w
            = (Ok (Some (timed_out_message 3)), tick 6 w)) as Hrun.
  { intros mode w. unfold process_with_gemini.
    by rewrite (gemini_attempts_all_timeouts _ _ _ _ 3 3 1 w eq_refl
                  ltac:(done) (Hto mode)). }
  split_and!; [done|by eauto|].
  intros w e Hr He Hparser <- Hlive Htruthy.
  assert (extract env pdf GEMINI (e_filename e)
          = Ok (Some (timed_out_message 3), Some (timed_out_message 3))) as Hex.
  { unfold extract, process_document. rewrite bind_run. cbn [sleep]. cbn beta iota.
    rewrite bind_run, Hrun. cbn beta iota. by rewrite bind_run, Hrun. }
  assert (ParserType_of (e_parser e) = Some GEMINI) as Hp by by rewrite Hparser.
  unfold exec.
  rewrite (work_success env _ _ _ _ _ _ (reachable_invariant _ Hr) He Hp
             Hlive Htruthy Hex).
  cbn [snd]. eexists. rewrite stored_result_ack. split.
  - set (rc := completed_record _ _ _ _ _ _ _).
    change (e_job_id e) with (job_id rc). apply stored_result_put_eq.
  - done.
Qed.

(** * More of the code *)

(** ** What one pass of the worker leaves alone *)

Lemma acked_cons c tr :
  acked (c :: tr)
  = acked tr ++ match c with XACK i => [i] | _ => [] end.
Proof.
  unfold acked. cbn [rev]. rewrite omap_app. f_equal. by destruct c.
Qed.

Lemma acked_put r w : acked (trace (put r w)) = acked (trace w).
Proof. cbn [put set_key trace]. rewrite acked_cons. apply app_nil_r. Qed.

Lemma acked_mark_processing j w :
  acked (trace (mark_processing j w)) = acked (trace w).
Proof.
  unfold mark_processing. destruct (stored_result w j).
  - rewrite acked_put. cbn [log trace]. rewrite acked_cons. apply app_nil_r.
  - cbn [log trace]. rewrite acked_cons. apply app_nil_r.
Qed.

Lemma acked_record_failure j ex w :
  acked (trace (record_failure j ex w)) = acked (trace w).
Proof.
  unfold record_failure. destruct (stored_result w j).
  - rewrite acked_put. cbn [log trace]. rewrite acked_cons. apply app_nil_r.
  - cbn [log trace]. rewrite acked_cons. apply app_nil_r.
Qed.

Lemma queue_mark_processing j w :
  stream (mark_processing j w) = stream w
  ∧ delivered (mark_processing j w) = delivered w
  ∧ pel (mark_processing j w) = pel w
  ∧ clock (mark_processing j w) = clock w.
Proof. unfold mark_processing. by destruct (stored_result w j). Qed.

Lemma queue_record_failure j ex w :
  stream (record_failure j ex w) = stream w
  ∧ delivered (record_failure j ex w) = delivered w
  ∧ pel (record_failure j ex w) = pel w
  ∧ clock (record_failure j ex w) = clock w.
Proof. unfold record_failure. by destruct (stored_result w j). Qed.

(** The world [process_message] ends in, on a well-formed store. *)
Lemma process_message_end env i e p w :
  wf_store w → ParserType_of (e_parser e) = Some p →
  ∃ w0, process_message env i e w = (Ok tt, ack i w0)
        ∧ stream w0 = stream w ∧ delivered w0 = delivered w
        ∧ pel w0 = pel w ∧ acked (trace w0) = acked (trace w)
        ∧ (clock w ≤ clock w0)%Z
        ∧ (∀ k, k ≠ result_key (e_job_id e) → kv w0 !! k = kv w !! k)
        ∧ (∀ j, j ≠ e_job_id e →
             record_history j (trace w0) = record_history j (trace w)).
Proof.
  intros Hwf Hp. rewrite (process_message_run _ _ _ _ _ Hwf Hp).
  set (j0 := e_job_id e).
  set (w1 := log (GET (e_pdf_key e)) (mark_processing j0 w)).
  assert (wf_store w1) as Hwf1 by by apply wf_store_mark_processing.
  destruct (queue_mark_processing j0 w) as (Hs1 & Hd1 & Hp1 & Hc1).
  assert (acked (trace w1) = acked (trace w)) as Ha1.
  { unfold w1. cbn [log trace]. rewrite acked_cons, acked_mark_processing.
    apply app_nil_r. }
  assert (∀ k, k ≠ result_key j0 → kv w1 !! k = kv w !! k) as Hk1.
  { intros k Hk. unfold w1. cbn [log kv]. by apply kv_mark_processing. }
  assert (∀ j, j ≠ j0 → record_history j (trace w1) = record_history j (trace w))
    as Hh1.
  { intros j Hj. unfold w1. rewrite record_history_log by done.
    unfold mark_processing. destruct (stored_result w j0) as [r|] eqn:E.
    - rewrite record_history_put_ne, record_history_log; [done..|].
      cbn [set_status job_id]. rewrite (stored_result_job_id _ _ _ Hwf E). done.
    - by rewrite record_history_log. }
  assert (∀ ex n,
    let w2 := record_failure j0 ex (tick n w1) in
    (0 ≤ n)%Z →
    stream w2 = stream w ∧ delivered w2 = delivered w ∧ pel w2 = pel w
    ∧ acked (trace w2) = acked (trace w) ∧ (clock w ≤ clock w2)%Z
    ∧ (∀ k, k ≠ result_key j0 → kv w2 !! k = kv w !! k)
    ∧ (∀ j, j ≠ j0 → record_history j (trace w2) = record_history j (trace w)))
    as Hfail.
  { intros ex n w2 Hn. subst w2.
    assert (wf_store (tick n w1)) as Hwf2 by done.
    destruct (queue_record_failure j0 ex (tick n w1)) as (Hs2 & Hd2 & Hp2 & Hc2).
    split_and!.
    - by rewrite Hs2.
    - by rewrite Hd2.
    - by rewrite Hp2.
    - by rewrite acked_record_failure.
    - rewrite Hc2. cbn [tick clock log w1]. rewrite Hc1. lia.
    - intros k Hk. rewrite kv_record_failure by done. by apply Hk1.
    - intros j Hj. unfold record_failure.
      destruct (stored_result (tick n w1) j0) as [r|] eqn:E.
      + rewrite record_history_put_ne, record_history_log; [by apply Hh1|done|].
        cbn [mark_failed set_completed_at set_error set_status job_id].
        rewrite (stored_result_job_id _ _ _ Hwf2 E). done.
      + rewrite record_history_log by done. by apply Hh1. }
  unfold try_outcome. cbn zeta. fold j0 w1.
  destruct (live w1 (e_pdf_key e)) as [pdf|].
  2:{ eexists. split; [done|]. rewrite <- (tick_0 w1). apply Hfail. lia. }
  destruct (truthy pdf).
  2:{ eexists. split; [done|]. rewrite <- (tick_0 w1). apply Hfail. lia. }
  assert (0 ≤ extract_seconds env pdf p (e_filename e))%Z as Hsec.
  { unfold extract_seconds.
    pose proof (clock_mono_process_document env pdf p (e_filename e) init_world).
    done. }
  destruct (extract env pdf p (e_filename e)) as [[c [s|]]|ex].
  - eexists. split; [done|]. split_and!; try done.
    + by rewrite acked_put.
    + unfold w1. cbn [put set_key tick clock log]. rewrite Hc1. lia.
    + intros k Hk. rewrite lookup_put_ne by done. by apply Hk1.
    + intros j Hj. rewrite record_history_put_ne by (cbn; congruence).
      by apply Hh1.
  - eexists. split; [done|]. by apply Hfail.
  - eexists. split; [done|]. by apply Hfail.
Qed.

Lemma work_end env w e :
  invariant w → stream w !! delivered w = Some e →
  ∃ w0, run_op (Work env) w = (Ok tt, ack (delivered w) w0)
        ∧ stream w0 = stream w ∧ delivered w0 = S (delivered w)
        ∧ pel w0 = {[delivered w]} ∪ pel w
        ∧ acked (trace w0) = acked (trace w)
        ∧ (clock w ≤ clock w0)%Z
        ∧ (∀ k, k ≠ result_key (e_job_id e) → kv w0 !! k = kv w !! k)
        ∧ (∀ j, j ≠ e_job_id e →
             record_history j (trace w0) = record_history j (trace w)).
Proof.
  intros Hinv He.
  destruct (work_deliver env _ _ Hinv He)
    as (p & rp & Hp & _ & _ & Hfl & _ & _ & -> & _).
  destruct (process_message_end env (delivered w) e p (deliver w)
              (in_flight_wf_store _ _ _ Hfl) Hp)
    as (w0 & -> & Hs & Hd & Hpel & Ha & Hc & Hk & Hh).
  exists w0. split_and!; try done.
  - rewrite Ha. cbn [deliver trace]. rewrite acked_cons. apply app_nil_r.
  - intros j Hj. rewrite Hh by done. cbn [deliver trace].
    rewrite record_history_cons. apply app_nil_r.
Qed.

Lemma work_idle env w :
  stream w !! delivered w = None →
  run_op (Work env) w = (Ok tt, log XREADGROUP (tick 5 w)).
Proof. intros H. cbn [run_op]. by apply worker_iteration_idle. Qed.

Lemma enqueue_world j f d p w :
  exec (Enqueue j f d p) w
  = put (new_record j f p (clock w))
        (xadd (new_entry j f p (clock w)) (set_key (pdf_key_of j) d 3600 w)).
Proof.
  unfold exec. cbn [run_op]. rewrite bind_run, add_job_to_queue_run.
  cbn beta iota. by rewrite ret_run.
Qed.

Lemma enqueue_history_ne j j' f d p w :
  j' ≠ j →
  record_history j' (trace (exec (Enqueue j f d p) w))
  = record_history j' (trace w).
Proof.
  intros Hne. rewrite enqueue_world.
  rewrite record_history_put_ne by (cbn; congruence).
  cbn [xadd set_key trace].
  rewrite !record_history_cons, record_write_pdf. cbn. by rewrite !app_nil_r.
Qed.

Lemma reachable_queue w :
  reachable w →
  pel w = ∅ ∧ delivered w ≤ length (stream w)
  ∧ acked (trace w) = seq 0 (delivered w).
Proof.
  induction 1 as [|w j f d p Hr IH Hnew|w env Hr IH|w s Hr IH].
  - done.
  - destruct IH as (Hp & Hd & Ha). rewrite enqueue_world. split_and!.
    + done.
    + cbn [put set_key xadd stream delivered]. rewrite length_app. lia.
    + rewrite acked_put. cbn [xadd set_key trace delivered].
      rewrite !acked_cons, !app_nil_r. done.
  - destruct IH as (Hp & Hd & Ha). unfold exec.
    destruct (stream w !! delivered w) as [e|] eqn:E.
    + destruct (work_end env _ _ (reachable_invariant _ Hr) E)
        as (w0 & -> & Hs0 & Hd0 & Hp0 & Ha0 & _).
      cbn [snd ack pel stream delivered trace]. split_and!.
      * rewrite Hp0, Hp, union_empty_r_L. apply difference_diag_L.
      * rewrite Hs0, Hd0. apply lookup_lt_Some in E. lia.
      * rewrite acked_cons, Ha0, Ha, Hd0. by rewrite seq_S.
    + rewrite work_idle by done. cbn [snd log tick pel stream delivered trace].
      split_and!; [done..|]. rewrite acked_cons. by rewrite app_nil_r.
  - done.
Qed.

(** X1.  In every world the system reaches, no delivered entry is left
    unacknowledged between two operations, the entries were delivered in
    the order of the stream, one at a time, and each of them was
    acknowledged exactly once, in that order. *)
Theorem entries_acknowledged_once_in_order (w : World) :
  reachable w →
  pel w = ∅
  ∧ delivered w ≤ length (stream w)
  ∧ acked (trace w) = seq 0 (delivered w).
Proof. apply reachable_queue. Qed.

(** X2.  A pass of the worker changes at most one key of the store, the
    status key of the entry it received: the payloads and the records of
    all other jobs keep their value and their expiry, the stream keeps its
    entries, and the pass takes one entry when one is waiting and none
    otherwise. *)
Theorem worker_pass_frame (env : Env) (w : World) :
  reachable w →
  let w' := exec (Work env) w in
  stream w' = stream w
  ∧ match stream w !! delivered w with
    | Some e =>
        delivered w' = S (delivered w)
        ∧ ∀ k, k = result_key (e_job_id e) ∨ kv w' !! k = kv w !! k
    | None => delivered w' = delivered w ∧ kv w' = kv w
    end.
Proof.
  intros Hr w'. unfold w', exec.
  destruct (stream w !! delivered w) as [e|] eqn:E.
  - destruct (work_end env _ _ (reachable_invariant _ Hr) E)
      as (w0 & -> & Hs0 & Hd0 & _ & _ & _ & Hk & _).
    cbn [snd ack stream delivered kv]. split_and!; [done..|].
    intros k. destruct (decide (k = result_key (e_job_id e))); [by left|].
    right. by apply Hk.
  - by rewrite work_idle.
Qed.

(** ** A terminal status is final *)

Lemma steps_reachable w w' : reachable w → steps w w' → reachable w'.
Proof.
  intros Hr. induction 1 as [|w w' w'' _ IH Hstep]; [done|].
  specialize (IH Hr). destruct Hstep.
  - by apply reach_enqueue.
  - by apply reach_work.
  - by apply reach_wait.
Qed.

Lemma terminal_delivered w j s :
  invariant w →
  last (status_history j (trace w)) = Some s → is_terminal s = true →
  ∃ i e, stream w !! i = Some e ∧ e_job_id e = j ∧ i < delivered w.
Proof.
  intros Hinv Hlast Ht.
  destruct (decide (j ∈ e_job_id <$> stream w)) as [Hin|Hout].
  - apply list_elem_of_fmap in Hin as (e & -> & He).
    apply list_elem_of_lookup in He as [i Hi].
    exists i, e. split_and!; [done..|].
    destruct (decide (i < delivered w)) as [|Hge]; [done|].
    destruct (inv_undelivered _ Hinv i e Hi ltac:(lia)) as (r & Hh & Hp).
    unfold status_history in Hlast. rewrite Hh in Hlast. cbn in Hlast.
    destruct Hp as (_ & _ & _ & Hs & _). simplify_eq. by rewrite Hs in Ht.
  - unfold status_history in Hlast.
    by rewrite (inv_unknown _ Hinv j Hout) in Hlast.
Qed.

Lemma step_frozen w w' j i e :
  invariant w → step w w' →
  stream w !! i = Some e → e_job_id e = j → i < delivered w →
  record_history j (trace w') = record_history j (trace w)
  ∧ kv w' !! result_key j = kv w !! result_key j
  ∧ stream w' !! i = Some e ∧ i < delivered w'.
Proof.
  intros Hinv Hstep Hi Hj Hd.
  destruct Hstep as [w j' f d p Hnew|w env|w s].
  - assert (j ≠ j') as Hne.
    { intros ->. apply Hnew. apply list_elem_of_fmap. exists e.
      split; [done|]. by eapply list_elem_of_lookup_2. }
    split_and!.
    + by apply enqueue_history_ne.
    + rewrite enqueue_world. rewrite lookup_put_ne
        by (cbn; intros ?%result_key_inj; done).
      cbn [xadd set_key kv]. by rewrite lookup_insert_ne.
    + rewrite enqueue_world. cbn [put set_key xadd stream].
      by apply lookup_app_l_Some.
    + by rewrite enqueue_world.
  - unfold exec. destruct (stream w !! delivered w) as [e0|] eqn:E.
    + destruct (work_end env _ _ Hinv E)
        as (w0 & -> & Hs0 & Hd0 & _ & _ & _ & Hk & Hh).
      assert (j ≠ e_job_id e0) as Hne.
      { intros Heq.
        assert (i = delivered w); [|lia].
        eapply (NoDup_lookup _ _ _ _ (inv_nodup _ Hinv));
          rewrite list_lookup_fmap.
        - by rewrite Hi.
        - rewrite E. cbn. congruence. }
      cbn [snd ack stream delivered kv trace]. split_and!.
      * rewrite record_history_cons. cbn. rewrite app_nil_r. by apply Hh.
      * apply Hk. by intros ?%result_key_inj.
      * by rewrite Hs0.
      * lia.
    + rewrite work_idle by done. cbn [snd log tick stream delivered kv trace].
      split_and!; try done. rewrite record_history_cons. cbn. apply app_nil_r.
  - done.
Qed.

(** X3.  Once the last status written for a job is completed or failed,
    nothing the system does later, with new job ids for new jobs, writes a
    status for that job again or changes the value stored under its status
    key: the record stays as it is until it expires. *)
Theorem terminal_status_is_final (w w' : World) (j : string)
    (s : ProcessingStatus) :
  reachable w → steps w w' →
  last (status_history j (trace w)) = Some s → is_terminal s = true →
  status_history j (trace w') = status_history j (trace w)
  ∧ kv w' !! result_key j = kv w !! result_key j.
Proof.
  intros Hr Hsteps Hlast Ht.
  destruct (terminal_delivered _ _ _ (reachable_invariant _ Hr) Hlast Ht)
    as (i & e & Hi & Hj & Hd).
  unfold status_history.
  enough (record_history j (trace w') = record_history j (trace w)
          ∧ kv w' !! result_key j = kv w !! result_key j
          ∧ stream w' !! i = Some e ∧ i < delivered w') as (-> & -> & _);
    [done|].
  clear Hlast Ht. induction Hsteps as [|w w' w'' Hsteps IH Hstep]; [done|].
  destruct (IH Hr Hi Hd) as (Hh & Hk & Hi' & Hd').
  destruct (step_frozen _ _ _ _ _
              (reachable_invariant _ (steps_reachable _ _ Hr Hsteps))
              Hstep Hi' Hj Hd') as (Hh2 & Hk2 & Hi2 & Hd2).
  split_and!; [congruence|congruence|done..].
Qed.

(** ** The loop of the worker *)

Lemma run_run schedule w :
  run schedule w = (Ok tt, exec_all (passes schedule) w).
Proof.
  revert w. induction schedule as [|[env shutdown] rest IH]; intros w; [done|].
  cbn [run passes]. rewrite bind_run, exec_all_cons.
  pose proof (run_op_ok (Work env) w) as Hok. unfold exec.
  cbn [run_op] in *.
  destruct (worker_iteration env w) as [[[]|ex] w1]; [|done]. cbn [snd].
  destruct shutdown; [done|apply IH].
Qed.

Lemma reachable_passes schedule w :
  reachable w → reachable (exec_all (passes schedule) w).
Proof.
  revert w. induction schedule as [|[env shutdown] rest IH]; intros w Hr; [done|].
  cbn [passes]. rewrite exec_all_cons.
  destruct shutdown; [by apply reach_work|]. by apply IH, reach_work.
Qed.

Lemma run_after_signal (pre : list (Env * bool)) env rest w :
  Forall (λ x, x.2 = false) pre →
  run (pre ++ (env, true) :: rest) w = run (pre ++ [(env, true)]) w.
Proof.
  intros Hpre. revert w.
  induction Hpre as [|[env0 b] pre Hb _ IH]; intros w.
  - cbn [app run]. rewrite !bind_run. by destruct (worker_iteration env w) as [[[]|] ?].
  - cbn in Hb. subst b. cbn [app run]. rewrite !bind_run.
    destruct (worker_iteration env0 w) as [[[]|] w1]; [apply IH|done].
Qed.

(** X4.  [Worker.run] never raises, whatever the extractors do; when it
    returns, after the pass during which the shutdown signal arrived, the
    world is one the system reaches and no delivered entry is left
    unacknowledged: the pass in progress was finished.  What would have
    followed the signal is not run. *)
Theorem run_finishes_the_pass_in_progress
    (schedule : list (Env * bool)) (w : World) :
  reachable w →
  (∃ w', run schedule w = (Ok tt, w') ∧ reachable w' ∧ pel w' = ∅
         ∧ acked (trace w') = seq 0 (delivered w'))
  ∧ ∀ pre env rest,
      schedule = pre ++ (env, true) :: rest →
      Forall (λ x, x.2 = false) pre →
      run schedule w = run (pre ++ [(env, true)]) w.
Proof.
  intros Hr. split.
  - exists (exec_all (passes schedule) w). rewrite run_run.
    pose proof (reachable_passes schedule w Hr) as Hr'.
    destruct (reachable_queue _ Hr') as (Hp & _ & Ha). done.
  - intros pre env rest -> Hpre. by apply run_after_signal.
Qed.

Lemma delivered_work env w :
  reachable w →
  stream (exec (Work env) w) = stream w
  ∧ delivered (exec (Work env) w)
    = if decide (delivered w < length (stream w)) then S (delivered w)
      else delivered w.
Proof.
  intros Hr. unfold exec.
  destruct (stream w !! delivered w) as [e|] eqn:E.
  - destruct (work_end env _ _ (reachable_invariant _ Hr) E)
      as (w0 & -> & Hs0 & Hd0 & _).
    apply lookup_lt_Some in E. cbn [snd ack stream delivered].
    by rewrite decide_True.
  - rewrite work_idle by done. apply lookup_ge_None in E.
    cbn [snd log tick stream delivered]. by rewrite decide_False by lia.
Qed.

(** X5.  Passes of the worker take the waiting entries one by one: after
    [n] passes, the entries delivered are those delivered before and the
    next [n] of the stream, or all of the stream when fewer were
    waiting. *)
Theorem passes_work_off_the_backlog (envs : list Env) (w : World) :
  reachable w →
  let w' := exec_all (Work <$> envs) w in
  stream w' = stream w
  ∧ delivered w' = (delivered w + length envs) `min` length (stream w).
Proof.
  intros Hr. cbn zeta.
  destruct (reachable_queue _ Hr) as (_ & Hle & _).
  revert w Hr Hle. induction envs as [|env envs IH]; intros w Hr Hle.
  - cbn. split; [done|]. lia.
  - cbn [fmap list_fmap]. rewrite exec_all_cons.
    destruct (delivered_work env w Hr) as [Hs Hd].
    pose proof (reach_work _ env Hr) as Hr'.
    destruct (reachable_queue _ Hr') as (_ & Hle' & _).
    destruct (IH _ Hr' Hle') as [Hs' Hd'].
    rewrite Hs', Hd', Hs, Hd. split; [done|]. cbn [length].
    case_decide; lia.
Qed.

(** ** The upload endpoint *)

Lemma stream_id_truthy i : truthy (stream_id i) = true.
Proof. unfold stream_id. by destruct (pretty i). Qed.

Lemma upload_document_accepts uuid4 f name content parser w :
  upload_filename f = Some name → truthy name = true →
  endswith (lower name) ".pdf" = true →
  upload_read f = Ok content → truthy content = true →
  (Z.of_nat (String.length content) ≤ 10 * 1024 * 1024)%Z →
  upload_document uuid4 (Some f) parser w
  = (Ok (mkUploadResponse uuid4 PENDING
           "Document queued for processing. Use job_id to check status."),
     exec (Enqueue uuid4 name content parser) w).
Proof.
  intros Hname Htn Hpdf Hread Htc Hsize. unfold upload_document.
  rewrite Hname, Htn, Hpdf. cbn [negb]. rewrite bind_run.
  unfold try_except at 1. unfold lift. rewrite Hread. cbn beta iota.
  rewrite Htc. cbn [negb orb].
  destruct content as [|c0 content]; [done|].
  change (String.length (String c0 content) =? 0) with false. cbn beta iota.
  rewrite (proj2 (Z.ltb_ge _ _)) by lia.
  unfold try_except. rewrite bind_run, add_job_to_queue_run. cbn beta iota.
  rewrite stream_id_truthy. cbn [negb]. rewrite ret_run.
  by rewrite enqueue_world.
Qed.

(** X6.  An upload without a file name, with a name that does not end in
    [.pdf] (whatever the case of the letters), whose content cannot be
    read, is empty or is larger than 10 MB is refused with status 400, and
    the world is left as it was: no Redis command was sent. *)
Theorem upload_rejected_before_any_store_access
    (uuid4 : string) (file : option UploadFile) (parser : ParserType)
    (w : World) :
  file ≫= upload_filename = None
  ∨ (∃ name, file ≫= upload_filename = Some name
             ∧ (truthy name = false ∨ endswith (lower name) ".pdf" = false))
  ∨ (∃ e, upload_read <$> file = Some (Raise e))
  ∨ (∃ content, upload_read <$> file = Some (Ok content)
                ∧ (truthy content = false
                   ∨ (10 * 1024 * 1024 < Z.of_nat (String.length content))%Z)) →
  ∃ detail,
    upload_document uuid4 file parser w = (Raise (HTTPException 400 detail), w).
Proof.
  unfold upload_document. destruct file as [f|]; cbn; [|eauto].
  destruct (upload_filename f) as [name|]; [|eauto].
  destruct (truthy name) eqn:Htn; cbn [negb]; [|eauto].
  destruct (endswith (lower name) ".pdf") eqn:Hpdf; cbn [negb]; [|eauto].
  rewrite bind_run. unfold try_except at 1. unfold lift.
  intros [H | [(name' & [= <-] & [H|H]) | [(e & [= Hr]) | (content & [= Hr] & H)]]];
    try congruence; rewrite Hr; cbn beta iota; [eauto|].
  destruct H as [H|H].
  - rewrite H. eauto.
  - destruct (negb (truthy content) || _); [eauto|].
    rewrite (proj2 (Z.ltb_lt _ _)) by lia. eauto.
Qed.

(** X7.  An upload with a name ending in [.pdf], in any case, and a
    readable content of at least one byte and at most 10 MB is answered
    with the job id and the status pending, never with an error; the world
    it leaves is the one [add_job_to_queue] makes: the payload is stored,
    one entry is appended to the stream, and a reader finds the pending
    record of the job at once. *)
Theorem accepted_upload_is_queued_pending
    (uuid4 : string) (f : UploadFile) (name content : string)
    (parser : ParserType) (w : World) :
  upload_filename f = Some name → truthy name = true →
  endswith (lower name) ".pdf" = true →
  upload_read f = Ok content → truthy content = true →
  (Z.of_nat (String.length content) ≤ 10 * 1024 * 1024)%Z →
  ∃ w',
    upload_document uuid4 (Some f) parser w
    = (Ok (mkUploadResponse uuid4 PENDING
             "Document queued for processing. Use job_id to check status."),
       w')
    ∧ w' = exec (Enqueue uuid4 name content parser) w
    ∧ stored_result w' uuid4
      = Some (mkResult uuid4 name parser PENDING None None None
                       (utcnow_isoformat (clock w)) None)
    ∧ live w' (pdf_key_of uuid4) = Some content
    ∧ stream w' = stream w ++ [new_entry uuid4 name parser (clock w)]
    ∧ delivered w' = delivered w.
Proof.
  intros Hname Htn Hpdf Hread Htc Hsize.
  eexists. split; [by apply upload_document_accepts|]. split; [done|].
  rewrite enqueue_world. split_and!; [|..|done|done].
  - apply (stored_result_put_eq (new_record uuid4 name parser (clock w))).
  - rewrite live_put_ne by apply not_eq_sym, result_key_not_pdf.
    unfold live. cbn [xadd set_key kv clock]. rewrite lookup_insert_eq.
    by rewrite (proj2 (Z.ltb_lt _ _)) by lia.
Qed.

(** ** From the upload to the answer of the status query *)

Lemma stored_result_tick_put r n w :
  (0 ≤ n)%Z →
  stored_result (tick n (put r w)) (job_id r)
  = if (n <? 3600)%Z then Some r else None.
Proof.
  intros Hn. unfold stored_result, live. cbn [tick put set_key kv clock].
  rewrite lookup_insert_eq.
  destruct (Z.ltb_spec n 3600).
  - rewrite (proj2 (Z.ltb_lt _ _)) by lia. cbn. apply decode_result_dumps.
  - by rewrite (proj2 (Z.ltb_ge _ _)) by lia.
Qed.

Lemma extract_seconds_nonneg env pdf p f : (0 ≤ extract_seconds env pdf p f)%Z.
Proof.
  unfold extract_seconds.
  apply (clock_mono_process_document env pdf p f init_world).
Qed.

Lemma work_failure env w e p pdf ex :
  invariant w → stream w !! delivered w = Some e →
  ParserType_of (e_parser e) = Some p →
  live w (e_pdf_key e) = Some pdf → truthy pdf = true →
  extract env pdf p (e_filename e) = Raise ex →
  run_op (Work env) w
  = (Ok tt,
     ack (delivered w)
       (record_failure (e_job_id e) ex
          (tick (extract_seconds env pdf p (e_filename e))
             (log (GET (e_pdf_key e))
                (mark_processing (e_job_id e) (deliver w)))))).
Proof.
  intros Hinv He Hp Hlive Htruthy Hex.
  destruct (work_deliver env _ _ Hinv He)
    as (p' & rp & Hp' & Hrp & _ & Hfl & Hk & _ & -> & ->).
  assert (p' = p) as -> by congruence.
  unfold try_outcome. cbn zeta.
  rewrite live_log, live_mark_processing;
    [|rewrite Hk; by apply not_eq_sym, result_key_not_pdf|by eapply in_flight_wf_store].
  change (live (deliver w) (e_pdf_key e)) with (live w (e_pdf_key e)).
  by rewrite Hlive, Htruthy, Hex.
Qed.

Lemma work_missing env w e :
  invariant w → stream w !! delivered w = Some e →
  (∀ pdf, live w (e_pdf_key e) = Some pdf → truthy pdf = false) →
  run_op (Work env) w
  = (Ok tt,
     ack (delivered w)
       (record_failure (e_job_id e) missing_payload
          (log (GET (e_pdf_key e))
             (mark_processing (e_job_id e) (deliver w))))).
Proof.
  intros Hinv He Hlive.
  destruct (work_deliver env _ _ Hinv He)
    as (p' & rp & Hp' & Hrp & _ & Hfl & Hk & _ & -> & ->).
  unfold try_outcome. cbn zeta.
  rewrite live_log, live_mark_processing;
    [|rewrite Hk; by apply not_eq_sym, result_key_not_pdf|by eapply in_flight_wf_store].
  change (live (deliver w) (e_pdf_key e)) with (live w (e_pdf_key e)).
  destruct (live w (e_pdf_key e)) as [pdf|] eqn:E; [|done].
  by rewrite (Hlive pdf).
Qed.

(** The world an upload leaves when the worker has no backlog. *)
Lemma enqueue_ready j f d p w :
  reachable w → delivered w = length (stream w) →
  j ∉ (e_job_id <$> stream w) →
  reachable (exec (Enqueue j f d p) w)
  ∧ stream (exec (Enqueue j f d p) w) !! delivered (exec (Enqueue j f d p) w)
    = Some (new_entry j f p (clock w))
  ∧ stored_result (exec (Enqueue j f d p) w) j
    = Some (new_record j f p (clock w))
  ∧ live (exec (Enqueue j f d p) w) (pdf_key_of j) = Some d
  ∧ clock (exec (Enqueue j f d p) w) = clock w
  ∧ delivered (exec (Enqueue j f d p) w) = delivered w.
Proof.
  intros Hr Hd Hj. split; [by constructor|]. rewrite enqueue_world.
  split_and!; try done.
  - cbn [put set_key xadd stream delivered]. rewrite Hd.
    by rewrite lookup_app_r, Nat.sub_diag by lia.
  - apply (stored_result_put_eq (new_record j f p (clock w))).
  - rewrite live_put_ne by apply not_eq_sym, result_key_not_pdf.
    unfold live. cbn [xadd set_key kv clock]. rewrite lookup_insert_eq.
    by rewrite (proj2 (Z.ltb_lt _ _)) by lia.
Qed.

Lemma mark_processing_pending j f p t w :
  stored_result w j = Some (new_record j f p t) →
  mark_processing j (deliver w)
  = put (set_status PROCESSING (new_record j f p t))
        (log (GET (result_key j)) (deliver w)).
Proof.
  intros Hs. unfold mark_processing. by rewrite stored_result_deliver, Hs.
Qed.



(** The record a reader finds after an upload to a worker without backlog
    and the next pass of the worker. *)
Lemma pass_after_upload_success env w j f d p c s :
  reachable w → delivered w = length (stream w) →
  j ∉ (e_job_id <$> stream w) →
  truthy d = true → extract env d p f = Ok (c, s) →
  stored_result (exec (Work env) (exec (Enqueue j f d p) w)) j
  = Some (mkResult j f p COMPLETED c s None (utcnow_isoformat (clock w))
            (Some (now_utc_isoformat (clock w + extract_seconds env d p f)))).
Proof.
  intros Hr Hd Hj Htd Hex.
  destruct (enqueue_ready j f d p w Hr Hd Hj) as (Hr1 & He & Hs & Hl & Hc & _).
  unfold exec at 1.
  rewrite (work_success env _ _ p d c s (reachable_invariant _ Hr1) He
             (ParserType_of_value p) Hl Htd Hex).
  cbn [snd]. rewrite stored_result_ack.
  cbn [new_entry e_job_id e_filename e_pdf_key]. rewrite Hs.
  cbn [completed_record new_record created_at tick log clock].
  rewrite (mark_processing_pending _ _ _ _ _ Hs).
  cbn [put set_key log deliver clock]. rewrite Hc.
  apply (stored_result_put_eq
           (mkResult j f p COMPLETED c s None (utcnow_isoformat (clock w))
              (Some (now_utc_isoformat
                       (clock w + extract_seconds env d p f))))).
Qed.

Lemma pass_after_upload_failure env w j f d p ex :
  reachable w → delivered w = length (stream w) →
  j ∉ (e_job_id <$> stream w) →
  truthy d = true → extract env d p f = Raise ex →
  stored_result (exec (Work env) (exec (Enqueue j f d p) w)) j
  = if (extract_seconds env d p f <? 3600)%Z then
      Some (mkResult j f p FAILED None None (Some (str_exn ex))
              (utcnow_isoformat (clock w))
              (Some (now_utc_isoformat (clock w + extract_seconds env d p f))))
    else None.
Proof.
  intros Hr Hd Hj Htd Hex.
  destruct (enqueue_ready j f d p w Hr Hd Hj) as (Hr1 & He & Hs & Hl & Hc & _).
  unfold exec at 1.
  rewrite (work_failure env _ _ p d ex (reachable_invariant _ Hr1) He
             (ParserType_of_value p) Hl Htd Hex).
  cbn [snd]. rewrite stored_result_ack.
  cbn [new_entry e_job_id e_filename e_pdf_key].
  rewrite (mark_processing_pending _ _ _ _ _ Hs).
  unfold record_failure.
  pose proof (stored_result_tick_put
                (set_status PROCESSING (new_record j f p (clock w)))
                (extract_seconds env d p f)
                (log (GET (result_key j))
                   (deliver (exec (Enqueue j f d p) w)))
                (extract_seconds_nonneg env d p f)) as Ht.
  cbn [set_status new_record job_id] in Ht.
  change (stored_result (tick ?n (log ?c (put ?r0 ?w0))) j)
    with (stored_result (tick n (put r0 w0)) j).
  rewrite Ht. destruct (extract_seconds env d p f <? 3600)%Z eqn:E.
  - cbn [tick log put set_key clock deliver]. rewrite Hc.
    apply (stored_result_put_eq
             (mkResult j f p FAILED None None (Some (str_exn ex))
                (utcnow_isoformat (clock w))
                (Some (now_utc_isoformat
                         (clock w + extract_seconds env d p f))))).
  - rewrite stored_result_log.
    change (stored_result (tick ?n (log ?c (put ?r0 ?w0))) j)
      with (stored_result (tick n (put r0 w0)) j).
    by rewrite Ht.
Qed.



(** X10.  A job whose payload is empty is not extracted: the pass of the
    worker records it as failed with the error text [PDF data not found in
    Redis], completed at the time of the pass, and acknowledges the
    entry. *)
Theorem empty_payload_is_recorded_as_failed
    (env : Env) (w : World) (j f d : string) (p : ParserType) :
  reachable w → delivered w = length (stream w) →
  j ∉ (e_job_id <$> stream w) →
  truthy d = false →
  let w' := exec (Work env) (exec (Enqueue j f d p) w) in
  stored_result w' j
  = Some (mkResult j f p FAILED None None (Some "PDF data not found in Redis")
            (utcnow_isoformat (clock w)) (Some (now_utc_isoformat (clock w))))
  ∧ pel w' = ∅ ∧ clock w' = clock w.
Proof.
  intros Hr Hd Hj Htd w'.
  destruct (enqueue_ready j f d p w Hr Hd Hj) as (Hr1 & He & Hs & Hl & Hc & _).
  assert (reachable w') as Hr' by by constructor.
  assert (w' = (run_op (Work env) (exec (Enqueue j f d p) w)).2) as Hw' by done.
  rewrite (work_missing env _ _ (reachable_invariant _ Hr1) He) in Hw'.
  2:{ cbn [new_entry e_pdf_key]. rewrite Hl. by intros ? [= <-]. }
  cbn [snd new_entry e_job_id e_filename e_pdf_key] in Hw'.
  rewrite (mark_processing_pending _ _ _ _ _ Hs) in Hw'.
  unfold record_failure in Hw'. rewrite stored_result_log in Hw'.
  rewrite (stored_result_put_eq
             (set_status PROCESSING (new_record j f p (clock w)))) in Hw'.
  destruct (reachable_queue _ Hr') as (Hpel & _).
  clearbody w'. subst w'. split_and!; [|exact Hpel|].
  - rewrite stored_result_ack.
    cbn [tick log put set_key clock deliver]. rewrite Hc.
    apply (stored_result_put_eq
             (mkResult j f p FAILED None None
                (Some "PDF data not found in Redis")
                (utcnow_isoformat (clock w))
                (Some (now_utc_isoformat (clock w))))).
  - cbn [ack put set_key log deliver clock]. exact Hc.
Qed.

(** ** Reads: the life of a record, the idle status query, the health probe *)

Lemma get_result_world j w : (get_result j w).2 = log (GET (result_key j)) w.
Proof.
  unfold get_result. rewrite bind_run. unfold redis_get. cbn beta iota.
  destruct (live w ("result:" +:+ j)) as [text|]; [|done].
  destruct (truthy text); [|done].
  destruct (json_loads text) as [d|]; [|done].
  by destruct (ProcessingResult_of_dict d).
Qed.

Lemma get_result_live j w text r :
  live w (result_key j) = Some text → decode_result text = Some r →
  get_result j w = (Ok (Some r), log (GET (result_key j)) w).
Proof.
  intros Hl Hd. unfold get_result. rewrite bind_run. unfold redis_get.
  change ("result:" +:+ j) with (result_key j). rewrite Hl. cbn beta iota.
  rewrite (decode_result_truthy _ _ Hd). unfold decode_result in Hd.
  destruct (json_loads text) as [d|]; [|done]. cbn in Hd. by rewrite Hd.
Qed.

Lemma get_result_gone j w :
  live w (result_key j) = None →
  get_result j w = (Ok None, log (GET (result_key j)) w).
Proof.
  intros Hl. unfold get_result. rewrite bind_run. unfold redis_get.
  change ("result:" +:+ j) with (result_key j). by rewrite Hl.
Qed.

(** X11.  A record that was saved is read back unchanged for 3600 seconds
    and is gone from then on: a read [n] seconds after the write returns
    the record when [n < 3600] and nothing otherwise, whatever the store
    held before. *)
Theorem saved_record_is_readable_for_one_hour
    (r : ProcessingResult) (n : N) (w : World) :
  (_ ← save_result r; _ ← sleep (Z.of_N n); get_result (job_id r)) w
  = (Ok (if (n <? 3600)%N then Some r else None),
     log (GET (result_key (job_id r))) (tick (Z.of_N n) (put r w))).
Proof.
  rewrite bind_run, save_result_run. cbn beta iota.
  rewrite bind_run. change (sleep (Z.of_N n) (put r w))
    with (Ok tt, tick (Z.of_N n) (put r w)). cbn beta iota.
  assert (live (tick (Z.of_N n) (put r w)) (result_key (job_id r))
          = if (n <? 3600)%N then Some (json_dumps (dict_exclude_none r))
            else None) as Hl.
  { unfold live. cbn [tick put set_key kv clock]. rewrite lookup_insert_eq.
    destruct (N.ltb_spec n 3600).
    - by rewrite (proj2 (Z.ltb_lt _ _)) by lia.
    - by rewrite (proj2 (Z.ltb_ge _ _)) by lia. }
  destruct (n <? 3600)%N.
  - apply (get_result_live _ _ _ _ Hl), decode_result_dumps.
  - by apply get_result_gone.
Qed.




(** X13.  The health probe writes one key of its own, [health_check_test],
    and reads it back: it answers 200 and healthy, the record and the
    payload of every job, the stream and the pending list are as they were,
    and the key of the probe is gone 10 seconds later. *)
Theorem health_check_leaves_jobs_alone (w : World) :
  ∃ w',
    health_check w
    = (Ok (200%Z, [("status", "healthy"); ("redis", "connected")]), w')
    ∧ (∀ j, stored_result w' j = stored_result w j
            ∧ live w' (pdf_key_of j) = live w (pdf_key_of j))
    ∧ (∀ k, k ≠ "health_check_test" → kv w' !! k = kv w !! k)
    ∧ stream w' = stream w ∧ delivered w' = delivered w ∧ pel w' = pel w
    ∧ clock w' = clock w
    ∧ live w' "health_check_test" = Some "ok"
    ∧ live (tick 10 w') "health_check_test" = None.
Proof.
  exists (log (GET "health_check_test")
            (set_key "health_check_test" "ok" 10 w)).
  assert (live (set_key "health_check_test" "ok" 10 w) "health_check_test"
          = Some "ok") as Hl.
  { unfold live. cbn [set_key kv clock]. rewrite lookup_insert_eq.
    by rewrite (proj2 (Z.ltb_lt _ _)) by lia. }
  split.
  { unfold health_check, try_except. cbn zeta.
    rewrite bind_run.
    change (redis_set "health_check_test" "ok" 10 w)
      with (Ok tt, set_key "health_check_test" "ok" 10 w).
    cbn beta iota. rewrite bind_run.
    change (redis_get "health_check_test" ?x)
      with (Ok (live x "health_check_test"), log (GET "health_check_test") x).
    cbn beta iota. rewrite Hl.
    by rewrite bool_decide_eq_true_2 by done. }
  assert (∀ k, k ≠ "health_check_test" →
            (<["health_check_test" := ("ok", (clock w + 10)%Z)]> (kv w)) !! k
            = kv w !! k) as Hne.
  { intros k Hk. by rewrite lookup_insert_ne. }
  split_and!; try done.
  - intros j. unfold stored_result, live. cbn [log set_key kv clock].
    rewrite !Hne; [done|..]; unfold pdf_key_of, result_key; discriminate.
  - unfold live. cbn [tick log set_key kv clock]. rewrite lookup_insert_eq.
    by rewrite (proj2 (Z.ltb_ge _ _)) by lia.
Qed.

(** ** Entries that are left pending *)

Lemma preserves_ret {A} P (a : A) : preserves P (mret a).
Proof. by intros w. Qed.

Lemma preserves_raise {A} P e : preserves P (@raise A e).
Proof. by intros w. Qed.

Lemma preserves_lift {A} P (o : outcome A) : preserves P (lift o).
Proof. by intros w. Qed.

Lemma preserves_bind {A B} P (m : M A) (f : A → M B) :
  preserves P m → (∀ a, preserves P (f a)) → preserves P (m ≫= f).
Proof.
  intros Hm Hf w Hw. rewrite bind_run. specialize (Hm w Hw).
  destruct (m w) as [[a|e] w1]; cbn [snd] in *; [|done].
  by apply Hf.
Qed.

Lemma preserves_try {A} P (m : M A) (h : exn → M A) :
  preserves P m → (∀ e, preserves P (h e)) → preserves P (try_except m h).
Proof.
  intros Hm Hh w Hw. unfold try_except. specialize (Hm w Hw).
  destruct (m w) as [[a|e] w1]; cbn [snd] in *; [done|].
  by apply Hh.
Qed.

Lemma preserves_for_each {A} P (l : list A) (f : A → M unit) :
  (∀ a, preserves P (f a)) → preserves P (for_each l f).
Proof.
  intros Hf. induction l as [|a l IH]; cbn [for_each].
  - apply preserves_ret.
  - apply preserves_bind; [apply Hf|]. intros _. apply IH.
Qed.

Lemma preserves_clock_only {A} i (m : M A) : clock_only m → preserves (stuck i) m.
Proof. intros Hm w Hw. by rewrite Hm. Qed.

Lemma stuck_redis_set i k v x : preserves (stuck i) (redis_set k v x).
Proof. by intros w. Qed.

Lemma stuck_redis_get i k : preserves (stuck i) (redis_get k).
Proof. by intros w. Qed.

Lemma stuck_now i : preserves (stuck i) now.
Proof. by intros w. Qed.

Lemma stuck_get_result i j : preserves (stuck i) (get_result j).
Proof. intros w Hw. by rewrite get_result_world. Qed.

Lemma stuck_acknowledge i i' :
  i' ≠ i → preserves (stuck i) (acknowledge_message i').
Proof.
  intros Hi w [Hp Hd]. split; [|done].
  cbn. apply elem_of_difference. split; [done|].
  by intros ?%elem_of_singleton.
Qed.

Lemma stuck_process_message i env i' e :
  i' ≠ i → preserves (stuck i) (process_message env i' e).
Proof.
  intros Hi. unfold process_message. apply preserves_bind.
  { unfold ParserType_call. case_match; [apply preserves_ret|apply preserves_raise]. }
  intros p. apply preserves_try.
  - unfold process_message_try.
    apply preserves_bind; [apply stuck_get_result|]. intros r0.
    apply preserves_bind.
    { destruct r0; [|apply preserves_ret].
      apply preserves_bind; [apply stuck_redis_set|].
      intros _. apply preserves_ret. }
    intros r1. apply preserves_bind; [apply stuck_redis_get|].
    intros [pdf|]; [|apply preserves_raise].
    destruct (truthy pdf); [|apply preserves_raise].
    apply preserves_bind;
      [apply preserves_clock_only, clock_only_process_document|].
    intros [c s]. apply preserves_bind.
    { destruct s; [apply preserves_ret|apply preserves_raise]. }
    intros _. apply preserves_bind; [apply stuck_now|]. intros t.
    apply preserves_bind; [apply stuck_now|]. intros t'.
    apply preserves_bind; [apply stuck_redis_set|]. intros _.
    by apply stuck_acknowledge.
  - intros ex. unfold process_message_except.
    apply preserves_bind; [apply stuck_get_result|]. intros r0.
    apply preserves_bind; [|intros _; by apply stuck_acknowledge].
    destruct r0; [|apply preserves_ret].
    apply preserves_bind; [apply stuck_now|]. intros t.
    apply stuck_redis_set.
Qed.

Lemma stuck_deliver i w : stuck i w → stuck i (deliver w).
Proof.
  intros [Hp Hd]. split; cbn; [|lia]. apply elem_of_union. by right.
Qed.

Lemma stuck_worker_iteration i env : preserves (stuck i) (worker_iteration env).
Proof.
  intros w Hw. unfold worker_iteration, try_except.
  rewrite bind_run, read_from_stream_run.
  destruct (stream w !! delivered w) as [e|]; [|done].
  cbn [for_each]. rewrite bind_run.
  assert (delivered w ≠ i) as Hi by (destruct Hw; lia).
  pose proof (stuck_process_message i env (delivered w) e Hi (deliver w)
                (stuck_deliver _ _ Hw)) as Hp.
  by destruct (process_message env (delivered w) e (deliver w)) as [[[]|ex] w1].
Qed.

Lemma stuck_exec i o w : stuck i w → stuck i (exec o w).
Proof.
  destruct o as [j f d p|env|n]; [done| |done].
  apply stuck_worker_iteration.
Qed.

(** X14.  An entry that was delivered to the worker and is not
    acknowledged stays so under every later operation of the system,
    uploads, passes of the worker and the passing of time: the worker
    reads new entries only and acknowledges none but the one it has just
    read. *)
Theorem pending_entry_is_never_taken_up_again
    (i : nat) (w : World) (ops : list op) :
  stuck i w → stuck i (exec_all ops w).
Proof.
  revert w. induction ops as [|o ops IH]; intros w Hw; [done|].
  rewrite exec_all_cons. by apply IH, stuck_exec.
Qed.

(** X15.  An entry whose parser field is not the value of a [ParserType]
    makes [process_message] raise before its [try] block: the pass of the
    worker writes nothing, acknowledges nothing and sleeps one second, and
    the entry is left delivered and pending. *)
Theorem entry_with_unknown_parser_is_left_pending
    (env : Env) (w : World) (e : StreamEntry) :
  stream w !! delivered w = Some e →
  ParserType_of (e_parser e) = None →
  process_message env (delivered w) e (deliver w)
  = (Raise (ValueError (e_parser e +:+ " is not a valid ParserType")),
     deliver w)
  ∧ worker_iteration env w = (Ok tt, tick 1 (deliver w))
  ∧ stuck (delivered w) (exec (Work env) w)
  ∧ kv (exec (Work env) w) = kv w.
Proof.
  intros He Hp.
  assert (process_message env (delivered w) e (deliver w)
          = (Raise (ValueError (e_parser e +:+ " is not a valid ParserType")),
             deliver w)) as Hrun.
  { unfold process_message. rewrite bind_run. unfold ParserType_call.
    by rewrite Hp. }
  assert (worker_iteration env w = (Ok tt, tick 1 (deliver w))) as Hw.
  { unfold worker_iteration, try_except.
    rewrite bind_run, read_from_stream_run, He. cbn [for_each].
    by rewrite bind_run, Hrun. }
  split_and!; try done.
  - unfold exec. cbn [run_op]. rewrite Hw. split; cbn; [|lia].
    apply elem_of_union. left. by apply elem_of_singleton.
  - unfold exec. cbn [run_op]. by rewrite Hw.
Qed.

(** X16.  When the status read of the job of an entry raises, as it does
    on a text under the status key that is no record, the handler of
    [process_message] raises on the same read and the entry is not
    acknowledged: the pass reads the status key twice, writes nothing and
    sleeps one second, and the entry is left delivered and pending. *)
Theorem unreadable_record_leaves_entry_pending
    (env : Env) (w : World) (e : StreamEntry) (p : ParserType) (ex : exn) :
  stream w !! delivered w = Some e →
  ParserType_of (e_parser e) = Some p →
  (get_result (e_job_id e) w).1 = Raise ex →
  worker_iteration env w
  = (Ok tt,
     tick 1 (log (GET (result_key (e_job_id e)))
               (log (GET (result_key (e_job_id e))) (deliver w))))
  ∧ stuck (delivered w) (exec (Work env) w)
  ∧ kv (exec (Work env) w) = kv w.
Proof.
  intros He Hp Hex.
  assert (∀ w0, kv w0 = kv w → clock w0 = clock w →
            get_result (e_job_id e) w0
            = (Raise ex, log (GET (result_key (e_job_id e))) w0)) as Hget.
  { intros w0 Hkv Hc. rewrite <- (get_result_world (e_job_id e) w0).
    rewrite <- Hex. unfold get_result. rewrite !bind_run. unfold redis_get.
    cbn beta iota. unfold live. rewrite Hkv, Hc.
    destruct (match kv w !! ("result:" +:+ e_job_id e) with
              | Some (value, expires) =>
                  if (clock w <? expires)%Z then Some value else None
              | None => None
              end) as [text|]; [|done].
    destruct (truthy text); [|done].
    destruct (json_loads text) as [d|]; [|done].
    by destruct (ProcessingResult_of_dict d). }
  assert (worker_iteration env w
          = (Ok tt,
             tick 1 (log (GET (result_key (e_job_id e)))
                       (log (GET (result_key (e_job_id e))) (deliver w)))))
    as Hw.
  { unfold worker_iteration, try_except.
    rewrite bind_run, read_from_stream_run, He. cbn [for_each].
    rewrite bind_run. unfold process_message. rewrite bind_run.
    unfold ParserType_call. rewrite Hp, ret_run. cbn beta iota.
    unfold try_except, process_message_try. rewrite bind_run.
    rewrite (Hget (deliver w)) by done.
    unfold process_message_except. rewrite bind_run.
    by rewrite (Hget (log _ (deliver w))) by done. }
  split_and!; try done.
  - unfold exec. cbn [run_op]. rewrite Hw. split; cbn; [|lia].
    apply elem_of_union. left. by apply elem_of_singleton.
  - unfold exec. cbn [run_op]. by rewrite Hw.
Qed.

(** ** The retries of the Gemini path *)


Lemma gemini_attempts_answer env pdf f mode retries remaining :
  ∀ attempt w o w',
    attempt + remaining = S retries → remaining ≠ 0 →
    gemini_attempts env pdf f mode retries attempt remaining w = (Ok o, w') →
    ∃ text n,
      o = Some text
      ∧ (text = no_text ∨ text = timed_out_message retries
         ∨ (truthy text = true ∧ 10 ≤ String.length (strip text)
            ∧ ∃ a, attempt ≤ a ≤ retries
                   ∧ env_gemini_attempt env pdf f mode a = Ok text))
      ∧ n < remaining ∧ w' = tick (3 * Z.of_nat n) w.
Proof.
  induction remaining as [|n IH]; intros attempt w o w' Hsum Hne; [done|].
  cbn [gemini_attempts]. unfold try_except_Timeout. rewrite bind_run.
  unfold lift.
  destruct (env_gemini_attempt env pdf f mode attempt) as [text|e] eqn:E;
    cbn beta iota.
  - destruct (truthy text) eqn:Ht; cbn [negb orb].
    + destruct (Nat.ltb_spec (String.length (strip text)) 10);
        rewrite ret_run; intros [= <- <-].
      * exists no_text, 0. rewrite tick_0. split_and!; auto; lia.
      * exists text, 0. rewrite tick_0. split_and!; try done; [|lia].
        right. right. split_and!; try done. exists attempt. split; [lia|done].
    + rewrite ret_run; intros [= <- <-].
      exists no_text, 0. rewrite tick_0. split_and!; auto; lia.
  - destruct e; try done.
    destruct (attempt =? retries) eqn:Eq.
    + rewrite ret_run. intros [= <- <-].
      exists (timed_out_message retries), 0. rewrite tick_0.
      split_and!; auto; lia.
    + apply Nat.eqb_neq in Eq. rewrite bind_run. cbn [sleep]. cbn beta iota.
      change (mkWorld (kv w) (stream w) (delivered w) (pel w) (clock w + 3) (trace w))
        with (tick 3 w).
      intros H. apply IH in H as (text & m & -> & Ht & Hm & ->); [|lia|lia].
      exists text, (S m). split_and!; try done; [|lia|].
      * destruct Ht as [?|[?|(? & ? & a & ? & ?)]]; auto.
        right. right. split_and!; try done. exists a. split; [lia|done].
      * rewrite tick_tick. f_equal. lia.
Qed.


(** X18.  With at least one attempt allowed, every normal return of
    [process_with_gemini] is a text, never Python's [None], and never a
    blank one: it is the fixed no-text message, the fixed message of the
    exhausted retries, or the text of an attempt with at least 10
    characters once trimmed.  The call sleeps 3 seconds fewer than
    [retries] times and leaves the store as it was. *)
Theorem gemini_result_is_never_blank
    (env : Env) (pdf f : string) (mode : bool) (retries : nat)
    (w w' : World) (o : option string) :
  0 < retries →
  process_with_gemini env pdf f mode retries w = (Ok o, w') →
  ∃ text n,
    o = Some text
    ∧ (text = no_text ∨ text = timed_out_message retries
       ∨ (truthy text = true ∧ 10 ≤ String.length (strip text)
          ∧ ∃ a, 1 ≤ a ≤ retries
                 ∧ env_gemini_attempt env pdf f mode a = Ok text))
    ∧ n < retries ∧ w' = tick (3 * Z.of_nat n) w.
Proof.
  intros Hr H. unfold process_with_gemini in H.
  apply gemini_attempts_answer in H; [done|lia..].
Qed.

(** ** The PyPDF path: extraction and summary *)

Lemma strip_truthy text : truthy (strip text) = true → truthy text = true.
Proof. by destruct text. Qed.

Lemma page_block_truthy lib pdf is_scanned k b :
  page_block lib pdf is_scanned k = Some b → truthy b = true.
Proof.
  assert (∀ o, ocr_block lib pdf k = Ok (Some o) → truthy o = true) as Hocr.
  { intros o. unfold ocr_block.
    destruct (lib_convert_from_bytes lib pdf k) as [[|image images]|]; try done.
    destruct (lib_image_to_string lib image) as [t|]; [|done].
    destruct (truthy t && truthy (strip t)); [|done]. by intros [= <-]. }
  unfold page_block. destruct is_scanned; cbn [negb].
  - destruct (ocr_block lib pdf k) as [[o|]|] eqn:E; try done.
    intros [= <-]. by apply Hocr.
  - destruct (lib_extract_text lib pdf k) as [t|]; [|done].
    destruct (truthy t && truthy (strip t)); [by intros [= <-]|].
    destruct (ocr_block lib pdf k) as [[o|]|] eqn:E; try done.
    intros [= <-]. by apply Hocr.
Qed.

Lemma truthy_app a b : truthy a = true → truthy (a +:+ b) = true.
Proof. by destruct a. Qed.

Lemma str_join_truthy sep b l :
  truthy b = true → truthy (str_join sep (b :: l)) = true.
Proof. intros Hb. destruct l; [done|]. by apply truthy_app. Qed.

Lemma omap_ext_in {A B} (f g : A → option B) (l : list A) :
  (∀ x, x ∈ l → f x = g x) → omap f l = omap g l.
Proof.
  induction l as [|x l IH]; intros H; [done|]. cbn.
  rewrite (H x) by apply list_elem_of_here.
  rewrite IH; [done|]. intros y Hy. apply H. by apply list_elem_of_further.
Qed.

Lemma append_empty_r (a : string) : a +:+ EmptyString = a.
Proof. induction a as [|x a IH]; [reflexivity|]. by rewrite app_cons, IH. Qed.

Lemma str_join_elem sep b l :
  b ∈ l → ∃ pre post, str_join sep l = pre +:+ b +:+ post.
Proof.
  induction l as [|x l IH]; intros Hb; [by apply elem_of_nil in Hb|].
  apply elem_of_cons in Hb as [<-|Hb].
  - exists "". destruct l as [|y l].
    + exists "". cbn [str_join]. by rewrite app_empty, append_empty_r.
    + by exists (sep +:+ str_join sep (y :: l)).
  - destruct (IH Hb) as (pre & post & Hj).
    destruct l as [|y l]; [by apply elem_of_nil in Hb|].
    exists (x +:+ sep +:+ pre), post.
    change (str_join sep (x :: y :: l))
      with (x +:+ sep +:+ str_join sep (y :: l)).
    rewrite Hj. by rewrite !append_assoc.
Qed.

(** X19.  [extract_with_pypdf] returns a text that is not empty or raises
    an [Exception] whose message starts with [PyPDF extraction failed: ],
    whatever the libraries answer or raise; a document without pages is
    the error [PyPDF extraction failed: PDF has no pages], and a document
    none of whose pages gives a text is
    [PyPDF extraction failed: No text could be extracted from the PDF]. *)
Theorem pypdf_extraction_outcomes (lib : PdfLib) (pdf : string) :
  match extract_with_pypdf lib pdf with
  | Ok text => truthy text = true
  | Raise e => ∃ m, e = Exception ("PyPDF extraction failed: " +:+ m)
  end
  ∧ (lib_pages lib pdf = Ok 0 →
     extract_with_pypdf lib pdf
     = Raise (Exception "PyPDF extraction failed: PDF has no pages"))
  ∧ (∀ n, lib_pages lib pdf = Ok n →
       (∀ k, 1 ≤ k ≤ n →
          page_block lib pdf (is_image_based_pdf lib pdf) k = None) →
       n ≠ 0 →
       extract_with_pypdf lib pdf
       = Raise (Exception
           "PyPDF extraction failed: No text could be extracted from the PDF")).
Proof.
  unfold extract_with_pypdf, extract_with_pypdf_try. split_and!.
  - destruct (lib_pages lib pdf) as [[|n]|e]; [eauto| |eauto].
    destruct (omap _ (seq 1 (S n))) as [|b l] eqn:E; [eauto|].
    apply str_join_truthy.
    assert (b ∈ omap (page_block lib pdf (is_image_based_pdf lib pdf))
                  (seq 1 (S n))) as Hb by (rewrite E; apply list_elem_of_here).
    apply list_elem_of_omap in Hb as (k & _ & Hk).
    by eapply page_block_truthy.
  - by intros ->.
  - intros n -> Hnone Hn. destruct n as [|n]; [done|].
    destruct (omap _ (seq 1 (S n))) as [|b l] eqn:E; [done|].
    assert (b ∈ omap (page_block lib pdf (is_image_based_pdf lib pdf))
                  (seq 1 (S n))) as Hb by (rewrite E; apply list_elem_of_here).
    apply list_elem_of_omap in Hb as (k & Hk & Hb).
    apply elem_of_seq in Hk. rewrite Hnone in Hb by lia. done.
Qed.

(** X20.  An error on one page does not fail the document.  When the
    document is not taken for a scan and page [k] has a selectable text
    that is not blank, the extraction returns a text, and the block of
    page [k], its heading, an empty line, its text and a line end, is part
    of it, whatever the other pages answer or raise. *)
Theorem page_with_text_is_extracted
    (lib : PdfLib) (pdf text : string) (n k : nat) :
  lib_pages lib pdf = Ok n → 1 ≤ k ≤ n →
  is_image_based_pdf lib pdf = false →
  lib_extract_text lib pdf k = Ok text → truthy (strip text) = true →
  ∃ pre post,
    extract_with_pypdf lib pdf
    = Ok (pre +:+ ("## Page " +:+ pretty k +:+ nl +:+ nl +:+ text +:+ nl)
              +:+ post).
Proof.
  intros Hn Hk Hscan Ht Hs.
  unfold extract_with_pypdf, extract_with_pypdf_try. rewrite Hn, Hscan.
  destruct n as [|n]; [lia|].
  assert (("## Page " +:+ pretty k +:+ nl +:+ nl +:+ text +:+ nl)
          ∈ omap (page_block lib pdf false) (seq 1 (S n))) as Hb.
  { apply list_elem_of_omap. exists k. split; [apply elem_of_seq; lia|].
    unfold page_block. cbn [negb]. rewrite Ht, Hs, (strip_truthy _ Hs). done. }
  destruct (omap _ (seq 1 (S n))) as [|b l] eqn:E;
    [by apply elem_of_nil in Hb|].
  destruct (str_join_elem nl _ _ Hb) as (pre & post & ->). eauto.
Qed.

(** X21.  The scan test looks at the first page only, and its answer
    holds for the whole document: when the first page has fewer than 10
    characters of selectable text, no page's selectable text is used, and
    the result is the same for every other answer of [extract_text] on the
    pages after the first. *)
Theorem scanned_first_page_sends_every_page_to_ocr
    (lib lib' : PdfLib) (pdf : string) :
  is_image_based_pdf lib pdf = true →
  lib_pages lib' pdf = lib_pages lib pdf →
  lib_extract_text lib' pdf 1 = lib_extract_text lib pdf 1 →
  (∀ k, lib_convert_from_bytes lib' pdf k = lib_convert_from_bytes lib pdf k) →
  (∀ image, lib_image_to_string lib' image = lib_image_to_string lib image) →
  extract_with_pypdf lib' pdf = extract_with_pypdf lib pdf.
Proof.
  intros Hscan Hp Ht Hc Hi.
  assert (is_image_based_pdf lib' pdf = true) as Hscan'.
  { unfold is_image_based_pdf in *. by rewrite Hp, Ht. }
  unfold extract_with_pypdf, extract_with_pypdf_try.
  rewrite Hp, Hscan, Hscan'.
  destruct (lib_pages lib pdf) as [[|n]|e]; [done| |done].
  rewrite (omap_ext_in (page_block lib' pdf true) (page_block lib pdf true));
    [done|].
  intros k _. unfold page_block, ocr_block. cbn [negb]. rewrite Hc.
  destruct (lib_convert_from_bytes lib pdf k) as [[|image images]|]; try done.
  by rewrite Hi.
Qed.

(** X22.  [generate_summary] returns a text that is not empty or raises an
    [Exception] whose message starts with [Summary generation failed: ];
    on a content with fewer than 100 characters once trimmed it returns
    its fixed answer without asking the model, whatever the model would
    answer or raise. *)
Theorem summary_outcomes
    (generate_content : string → outcome string) (content : string) :
  match generate_summary generate_content content with
  | Ok text => truthy text = true
  | Raise e => ∃ m, e = Exception ("Summary generation failed: " +:+ m)
  end
  ∧ (String.length (strip content) < 100 →
     generate_summary generate_content content
     = Ok "Document is too short to summarize effectively.").
Proof.
  unfold generate_summary, generate_summary_try. split.
  - destruct (String.length (strip content) <? 100); [done|].
    destruct (generate_content _) as [text|e]; [|eauto].
    destruct (truthy text) eqn:E; cbn [negb]; eauto.
  - intros H. by rewrite (proj2 (Nat.ltb_lt _ _) H).
Qed.

(** X23.  The summary of a content of more than 10000 characters depends
    on its first 10000 characters only: two such contents that agree on
    them and are not too short to summarise get the same prompt, hence the
    same summary or the same error. *)
#[warnings="-abstract-large-number"] Theorem summary_reads_the_first_10000_characters
    (generate_content : string → outcome string) (content content' : string) :
  take_chars 10000 content = take_chars 10000 content' →
  10000 < String.length content → 10000 < String.length content' →
  100 ≤ String.length (strip content) →
  100 ≤ String.length (strip content') →
  generate_summary generate_content content
  = generate_summary generate_content content'.
Proof.
  intros Ht Hl Hl' Hs Hs'. unfold generate_summary, generate_summary_try.
  rewrite !(proj2 (Nat.ltb_ge _ _)) by done.
  unfold content_preview_of.
  rewrite !(proj2 (Nat.ltb_lt _ _)) by done. by rewrite Ht.
Qed.

Lemma extract_pypdf env d f :
  extract env d PYPDF f
  = match env_extract_with_pypdf env d with
    | Ok c =>
        match env_generate_summary env c with
        | Ok s => Ok (Some c, Some s)
        | Raise e => Raise e
        end
    | Raise e => Raise e
    end.
Proof.
  unfold extract, process_document. rewrite bind_run. cbn [sleep].
  cbn beta iota. rewrite bind_run. unfold lift.
  destruct (env_extract_with_pypdf env d) as [c|]; [|done].
  cbn beta iota. rewrite bind_run.
  by destruct (env_generate_summary env c).
Qed.

Lemma extract_seconds_pypdf env d f :
  extract_seconds env d PYPDF f = Z.of_N (env_seconds env).
Proof.
  unfold extract_seconds, process_document. rewrite bind_run. cbn [sleep].
  cbn beta iota. rewrite bind_run. unfold lift.
  destruct (env_extract_with_pypdf env d) as [c|]; [|done].
  cbn beta iota. rewrite bind_run.
  by destruct (env_generate_summary env c).
Qed.

(** X24.  A document without pages, uploaded for the pypdf parser to a
    worker without backlog, is a failed job after the next pass: the
    record a reader finds has the error text
    [PyPDF extraction failed: PDF has no pages], no content and no
    summary, and the model was not asked for a summary. *)
Theorem document_without_pages_fails_the_job
    (lib : PdfLib) (generate_content : string → outcome string)
    (gemini_attempt : string → string → bool → nat → outcome string)
    (seconds : N) (w : World) (j f d : string) :
  reachable w → delivered w = length (stream w) →
  j ∉ (e_job_id <$> stream w) →
  truthy d = true → lib_pages lib d = Ok 0 → (seconds < 3600)%N →
  let env := service_env lib generate_content gemini_attempt seconds in
  stored_result (exec (Work env) (exec (Enqueue j f d PYPDF) w)) j
  = Some (mkResult j f PYPDF FAILED None None
            (Some "PyPDF extraction failed: PDF has no pages")
            (utcnow_isoformat (clock w))
            (Some (now_utc_isoformat (clock w + Z.of_N seconds)))).
Proof.
  intros Hr Hd Hj Htd Hp Hs env.
  assert (extract env d PYPDF f
          = Raise (Exception "PyPDF extraction failed: PDF has no pages"))
    as Hex.
  { rewrite extract_pypdf. unfold env, service_env. cbn [env_extract_with_pypdf].
    unfold extract_with_pypdf, extract_with_pypdf_try. by rewrite Hp. }
  rewrite (pass_after_upload_failure env w j f d PYPDF _ Hr Hd Hj Htd Hex).
  rewrite extract_seconds_pypdf. cbn [env service_env env_seconds].
  by rewrite (proj2 (Z.ltb_lt _ _)) by lia.
Qed.

(** X25.  When the text of a document is extracted and the summary
    fails, the job fails as a whole and the text is not kept: the record a
    reader finds after the pass has the error text of the summary, which
    starts with [Summary generation failed: ], and no content. *)
Theorem summary_error_discards_the_content
    (lib : PdfLib) (generate_content : string → outcome string)
    (gemini_attempt : string → string → bool → nat → outcome string)
    (seconds : N) (w : World) (j f d content : string) (ex : exn) :
  reachable w → delivered w = length (stream w) →
  j ∉ (e_job_id <$> stream w) →
  truthy d = true → (seconds < 3600)%N →
  extract_with_pypdf lib d = Ok content →
  100 ≤ String.length (strip content) →
  generate_content (summary_prompt (content_preview_of content)) = Raise ex →
  let env := service_env lib generate_content gemini_attempt seconds in
  stored_result (exec (Work env) (exec (Enqueue j f d PYPDF) w)) j
  = Some (mkResult j f PYPDF FAILED None None
            (Some ("Summary generation failed: " +:+ str_exn ex))
            (utcnow_isoformat (clock w))
            (Some (now_utc_isoformat (clock w + Z.of_N seconds)))).
Proof.
  intros Hr Hd Hj Htd Hs Hc Hlen Hg env.
  assert (extract env d PYPDF f
          = Raise (Exception ("Summary generation failed: " +:+ str_exn ex)))
    as Hex.
  { rewrite extract_pypdf. unfold env, service_env.
    cbn [env_extract_with_pypdf env_generate_summary]. rewrite Hc.
    unfold generate_summary, generate_summary_try.
    by rewrite (proj2 (Nat.ltb_ge _ _)), Hg by done. }
  rewrite (pass_after_upload_failure env w j f d PYPDF _ Hr Hd Hj Htd Hex).
  rewrite extract_seconds_pypdf. cbn [env service_env env_seconds].
  by rewrite (proj2 (Z.ltb_lt _ _)) by lia.
Qed.

(** X26.  A document whose extracted text has fewer than 100 characters
    once trimmed completes without the model: the record a reader finds
    after the pass is completed, with the text as content and the fixed
    answer [Document is too short to summarize effectively.] as summary,
    whatever the model would answer or raise. *)
Theorem short_document_completes_without_the_model
    (lib : PdfLib) (generate_content : string → outcome string)
    (gemini_attempt : string → string → bool → nat → outcome string)
    (seconds : N) (w : World) (j f d content : string) :
  reachable w → delivered w = length (stream w) →
  j ∉ (e_job_id <$> stream w) →
  truthy d = true →
  extract_with_pypdf lib d = Ok content →
  String.length (strip content) < 100 →
  let env := service_env lib generate_content gemini_attempt seconds in
  stored_result (exec (Work env) (exec (Enqueue j f d PYPDF) w)) j
  = Some (mkResult j f PYPDF COMPLETED (Some content)
            (Some "Document is too short to summarize effectively.") None
            (utcnow_isoformat (clock w))
            (Some (now_utc_isoformat (clock w + Z.of_N seconds)))).
Proof.
  intros Hr Hd Hj Htd Hc Hlen env.
  assert (extract env d PYPDF f
          = Ok (Some content,
                Some "Document is too short to summarize effectively."))
    as Hex.
  { rewrite extract_pypdf. unfold env, service_env.
    cbn [env_extract_with_pypdf env_generate_summary]. rewrite Hc.
    unfold generate_summary, generate_summary_try.
    by rewrite (proj2 (Nat.ltb_lt _ _)) by done. }
  rewrite (pass_after_upload_success env w j f d PYPDF _ _ Hr Hd Hj Htd Hex).
  by rewrite extract_seconds_pypdf.
Qed.

End Backend.

(** * Examples: the theorems at work *)

Lemma demo_queued_reachable :
  reachable epoch_isoformat epoch_isoformat_utc
    (demo_queued epoch_isoformat epoch_isoformat_utc).
Proof.
  unfold demo_queued. apply reach_enqueue; [apply reach_init|].
  apply not_elem_of_nil.
Defined.

Lemma demo_done_reachable :
  reachable epoch_isoformat epoch_isoformat_utc
    (demo_done epoch_isoformat epoch_isoformat_utc).
Proof. unfold demo_done. apply reach_work, demo_queued_reachable. Defined.

Lemma demo_gemini_queued_reachable :
  reachable epoch_isoformat epoch_isoformat_utc
    (demo_gemini_queued epoch_isoformat epoch_isoformat_utc).
Proof.
  unfold demo_gemini_queued. apply reach_enqueue; [apply reach_init|].
  apply not_elem_of_nil.
Defined.

Example demo_history :
  status_history demo_id
    (trace (demo_done epoch_isoformat epoch_isoformat_utc))
  = [PENDING; PROCESSING; COMPLETED].
Proof. vm_compute. reflexivity. Qed.

Example demo_json :
  json_dumps (dict_exclude_none (demo_record epoch_isoformat))
  = "{" +:+ json_string "job_id" +:+ ": " +:+ json_string demo_id +:+ ", "
    +:+ json_string "filename" +:+ ": " +:+ json_string "a.pdf" +:+ ", "
    +:+ json_string "parser" +:+ ": " +:+ json_string "pypdf" +:+ ", "
    +:+ json_string "status" +:+ ": " +:+ json_string "pending" +:+ ", "
    +:+ json_string "created_at" +:+ ": " +:+ json_string "0" +:+ "}".
Proof. vm_compute. reflexivity. Qed.

Example demo_json_escapes :
  json_loads
    (json_dumps [("k", String (ch 10) (String (ch 200)
                         (String c_quote (String c_backslash "x/"))))])
  = Some [("k", String (ch 10) (String (ch 200)
                  (String c_quote (String c_backslash "x/"))))].
Proof. vm_compute. reflexivity. Qed.

Example demo_strip : strip (String (ch 9) " ab c  ") = "ab c".
Proof. reflexivity. Qed.

(** The query sleeps once while the worker completes the job, and returns
    the completed record at its second poll. *)
Example demo_query_completes :
  fst <$> get_job_status epoch_isoformat epoch_isoformat_utc canonical_uuid 2
            demo_others demo_id
            (demo_queued epoch_isoformat epoch_isoformat_utc)
  = Some (Ok (mkResponse demo_id "a.pdf" PYPDF COMPLETED
                (Some "text of the document") (Some "a summary") None
                (Some "Processing complete!"))).
Proof. vm_compute. reflexivity. Qed.

(** With no worker the query gives up after 150 polls, 300 seconds, and
    answers with the pending record; 149 iterations are not enough; an
    unknown job id gives 404 at the first poll. *)
Example demo_query_waits :
  (λ x, (fst x, clock (snd x)))
    <$> get_job_status epoch_isoformat epoch_isoformat_utc canonical_uuid 150
          (λ _, []) demo_id (demo_queued epoch_isoformat epoch_isoformat_utc)
  = Some (Ok (mkResponse demo_id "a.pdf" PYPDF PENDING None None None
                (Some "Waiting in queue...")), 300%Z)
  ∧ get_job_status epoch_isoformat epoch_isoformat_utc canonical_uuid 149
      (λ _, []) demo_id (demo_queued epoch_isoformat epoch_isoformat_utc)
    = None
  ∧ fst <$> get_job_status epoch_isoformat epoch_isoformat_utc canonical_uuid 1
              (λ _, []) "123e4567-e89b-12d3-a456-426614174001"
              (demo_queued epoch_isoformat epoch_isoformat_utc)
    = Some (Raise (HTTPException 404 "Job not found")).
Proof. split_and!; vm_compute; reflexivity. Qed.

(** C1 at work: the queued job is read, processed and acknowledged. *)
Lemma worker_acknowledges_every_entry_witness :
  let w := demo_queued epoch_isoformat epoch_isoformat_utc in
  reachable epoch_isoformat epoch_isoformat_utc w
  ∧ stream w !! delivered w = Some (demo_entry epoch_isoformat)
  ∧ ∃ w', worker_iteration epoch_isoformat_utc demo_env w = (Ok tt, w')
          ∧ delivered w ∉ pel w'.
Proof.
  intros w.
  assert (stream w !! delivered w = Some (demo_entry epoch_isoformat)) as He
    by (vm_compute; reflexivity).
  split; [apply demo_queued_reachable|]. split; [exact He|].
  destruct (worker_acknowledges_every_entry epoch_isoformat epoch_isoformat_utc
              demo_env w _ demo_queued_reachable He)
    as (_ & w' & _ & Hw & _ & Hp).
  exists w'. split; [exact Hw|exact Hp].
Defined.

(** C2, the claim as stated fails: an hour after the job was queued its
    payload and its record have expired; the worker receives the entry, the
    [try] block fails on the missing payload, and the worker acknowledges
    the entry without having written any record: the only status ever
    written for the job is [PENDING], and no record is there. *)
Lemma expired_job_failure_leaves_no_failed_record :
  let w := demo_expired epoch_isoformat epoch_isoformat_utc in
  let w' := exec epoch_isoformat epoch_isoformat_utc (Work demo_env) w in
  stream w !! delivered w = Some (demo_entry epoch_isoformat)
  ∧ fst (process_message_try epoch_isoformat_utc demo_env 0 demo_id "a.pdf"
           PYPDF (pdf_key_of demo_id) (deliver w)) = Raise missing_payload
  ∧ status_history demo_id (trace w') = [PENDING]
  ∧ stored_result w' demo_id = None
  ∧ kv w' = kv w
  ∧ (∃ tr, trace w' = XACK 0 :: tr).
Proof.
  split_and!; try (vm_compute; reflexivity).
  eexists. vm_compute. reflexivity.
Qed.

(** C2 as amended at work: the extractor fails on the queued job, whose
    record is there; the record is written back as failed. *)
Lemma failure_recorded_when_record_present_witness :
  let w := demo_queued epoch_isoformat epoch_isoformat_utc in
  let e := demo_entry epoch_isoformat in
  reachable epoch_isoformat epoch_isoformat_utc w
  ∧ stream w !! delivered w = Some e
  ∧ ParserType_of (e_parser e) = Some PYPDF
  ∧ ∃ w', process_message epoch_isoformat_utc demo_env_failing (delivered w) e
            (deliver w) = (Ok tt, w')
          ∧ status <$> stored_result w' (e_job_id e) = Some FAILED
          ∧ (stored_result w' (e_job_id e) ≫= error)
            = Some "PyPDF extraction failed: PDF has no pages".
Proof.
  intros w e.
  assert (stream w !! delivered w = Some e) as He by (vm_compute; reflexivity).
  assert (ParserType_of (e_parser e) = Some PYPDF) as Hp by reflexivity.
  split; [apply demo_queued_reachable|]. split; [exact He|]. split; [exact Hp|].
  destruct (failure_recorded_when_record_present epoch_isoformat
              epoch_isoformat_utc demo_env_failing w e PYPDF
              demo_queued_reachable He Hp) as [_ H].
  set (b := process_message_try epoch_isoformat_utc demo_env_failing
              (delivered w) (e_job_id e) (e_filename e) PYPDF (e_pdf_key e)
              (deliver w)) in H.
  assert (b = (Raise (Exception "PyPDF extraction failed: PDF has no pages"),
               snd b)) as Hb.
  { rewrite (surjective_pairing b) at 1. f_equal; vm_compute; reflexivity. }
  destruct (H _ _ Hb) as (w' & Hrun & _ & Hm).
  assert (stored_result (snd b) (e_job_id e)
          = Some (set_status PROCESSING (demo_record epoch_isoformat))) as Hs
    by (vm_compute; reflexivity).
  rewrite Hs in Hm. destruct Hm as (Hst & _ & _).
  exists w'. split; [exact Hrun|]. rewrite Hst. split; reflexivity.
Defined.




(** C6, the claim as stated fails: after a job is queued nothing is stored
    under ['payload:'] or ['status:'] followed by its id; the payload is
    under ['pdf:'] and the record under ['result:']. *)
Lemma payload_and_status_keys_unused :
  let w := demo_queued epoch_isoformat epoch_isoformat_utc in
  kv w !! ("payload:" +:+ demo_id) = None
  ∧ kv w !! ("status:" +:+ demo_id) = None
  ∧ kv w !! ("pdf:" +:+ demo_id) = Some ("%PDF-1.4", 3600%Z)
  ∧ kv w !! ("result:" +:+ demo_id)
    = Some (json_dumps (dict_exclude_none (demo_record epoch_isoformat)),
            3600%Z).
Proof. split_and!; vm_compute; reflexivity. Qed.


(** C8 at work: a job id that is no UUID. *)
Lemma malformed_job_id_rejected_without_read_witness :
  (truthy "not-a-uuid" = false ∨ truthy (strip "not-a-uuid") = false
   ∨ canonical_uuid "not-a-uuid" = false)
  ∧ ∃ detail,
      get_job_status epoch_isoformat epoch_isoformat_utc canonical_uuid 0
        (λ _, []) "not-a-uuid" init_world
      = Some (Raise (HTTPException 400 detail), init_world).
Proof.
  assert (truthy "not-a-uuid" = false ∨ truthy (strip "not-a-uuid") = false
          ∨ canonical_uuid "not-a-uuid" = false) as H
    by (right; right; reflexivity).
  split; [exact H|].
  exact (malformed_job_id_rejected_without_read epoch_isoformat
           epoch_isoformat_utc canonical_uuid 0 (λ _, []) "not-a-uuid"
           init_world H).
Defined.

(** C9 at work: every Gemini call of [demo_env] times out, and the job
    queued for the gemini parser ends completed. *)
Lemma gemini_timeouts_complete_the_job_witness :
  (∀ (mode : bool) (a : nat), 1 ≤ a ≤ 3 →
     ∃ m, env_gemini_attempt demo_env "%PDF-1.4" "b.pdf" mode a
          = Raise (Timeout m))
  ∧ ∃ r, stored_result
           (exec epoch_isoformat epoch_isoformat_utc (Work demo_env)
              (demo_gemini_queued epoch_isoformat epoch_isoformat_utc))
           demo_id = Some r
         ∧ status r = COMPLETED
         ∧ content r = Some (timed_out_message 3).
Proof.
  assert (∀ (mode : bool) (a : nat), 1 ≤ a ≤ 3 →
            ∃ m, env_gemini_attempt demo_env "%PDF-1.4" "b.pdf" mode a
                 = Raise (Timeout m)) as H
    by (intros mode a _; eexists; reflexivity).
  split; [exact H|].
  destruct (gemini_timeouts_complete_the_job epoch_isoformat
              epoch_isoformat_utc demo_env "%PDF-1.4" "b.pdf" H)
    as (_ & _ & Hw).
  destruct (Hw (demo_gemini_queued epoch_isoformat epoch_isoformat_utc)
               (demo_gemini_entry epoch_isoformat)
               demo_gemini_queued_reachable)
    as (r & Hr & Hs & Hc & _); try (vm_compute; reflexivity).
  exists r. split; [exact Hr|]. split; [exact Hs|exact Hc].
Defined.

(** * Examples: the queue, the upload and the extraction at work *)

(** X1 at work, on the world of the completed job. *)
Lemma entries_acknowledged_once_in_order_witness :
  let w := demo_done epoch_isoformat epoch_isoformat_utc in
  reachable epoch_isoformat epoch_isoformat_utc w
  ∧ pel w = ∅ ∧ delivered w ≤ length (stream w)
  ∧ acked (trace w) = seq 0 (delivered w).
Proof.
  intros w. split; [apply demo_done_reachable|].
  exact (entries_acknowledged_once_in_order epoch_isoformat
           epoch_isoformat_utc w demo_done_reachable).
Defined.

(** X2 at work, on the pass that processes the queued job. *)
Lemma worker_pass_frame_witness :
  let w := demo_queued epoch_isoformat epoch_isoformat_utc in
  let w' := exec epoch_isoformat epoch_isoformat_utc (Work demo_env) w in
  reachable epoch_isoformat epoch_isoformat_utc w
  ∧ stream w' = stream w
  ∧ match stream w !! delivered w with
    | Some e =>
        delivered w' = S (delivered w)
        ∧ ∀ k, k = result_key (e_job_id e) ∨ kv w' !! k = kv w !! k
    | None => delivered w' = delivered w ∧ kv w' = kv w
    end.
Proof.
  intros w w'. split; [apply demo_queued_reachable|].
  exact (worker_pass_frame epoch_isoformat epoch_isoformat_utc demo_env w
           demo_queued_reachable).
Defined.

(** X3 at work: a second pass and an hour of waiting after the job was
    completed. *)
Lemma terminal_status_is_final_witness :
  let w := demo_done epoch_isoformat epoch_isoformat_utc in
  let w' := exec epoch_isoformat epoch_isoformat_utc (Wait 3600)
              (exec epoch_isoformat epoch_isoformat_utc (Work demo_env) w) in
  reachable epoch_isoformat epoch_isoformat_utc w
  ∧ steps epoch_isoformat epoch_isoformat_utc w w'
  ∧ last (status_history demo_id (trace w)) = Some COMPLETED
  ∧ is_terminal COMPLETED = true
  ∧ status_history demo_id (trace w') = status_history demo_id (trace w)
  ∧ kv w' !! result_key demo_id = kv w !! result_key demo_id.
Proof.
  intros w w'.
  assert (steps epoch_isoformat epoch_isoformat_utc w w') as Hs.
  { eapply steps_step; [eapply steps_step; [apply steps_refl|]|].
    - apply step_work.
    - apply step_wait. }
  assert (last (status_history demo_id (trace w)) = Some COMPLETED) as Hl
    by (vm_compute; reflexivity).
  assert (is_terminal COMPLETED = true) as Ht by reflexivity.
  split; [apply demo_done_reachable|]. split; [exact Hs|].
  split; [exact Hl|]. split; [exact Ht|].
  exact (terminal_status_is_final epoch_isoformat epoch_isoformat_utc w w'
           demo_id COMPLETED demo_done_reachable Hs Hl Ht).
Defined.

(** X4 at work: the signal arrives during the first pass, which processes
    the queued job; the second pass of the schedule is not made. *)
Lemma run_finishes_the_pass_in_progress_witness :
  let w := demo_queued epoch_isoformat epoch_isoformat_utc in
  let schedule := [(demo_env, true); (demo_env_failing, false)] in
  reachable epoch_isoformat epoch_isoformat_utc w
  ∧ (∃ w', run epoch_isoformat_utc schedule w = (Ok tt, w')
           ∧ reachable epoch_isoformat epoch_isoformat_utc w'
           ∧ pel w' = ∅ ∧ acked (trace w') = seq 0 (delivered w'))
  ∧ run epoch_isoformat_utc schedule w
    = run epoch_isoformat_utc [(demo_env, true)] w.
Proof.
  intros w schedule. split; [apply demo_queued_reachable|].
  destruct (run_finishes_the_pass_in_progress epoch_isoformat
              epoch_isoformat_utc schedule w demo_queued_reachable)
    as [H1 H2].
  split; [exact H1|].
  exact (H2 [] demo_env [(demo_env_failing, false)] eq_refl (List.Forall_nil _)).
Defined.

(** X5 at work: three passes on a queue of one entry. *)
Lemma passes_work_off_the_backlog_witness :
  let w := demo_queued epoch_isoformat epoch_isoformat_utc in
  let w' := exec_all epoch_isoformat epoch_isoformat_utc
              (Work <$> [demo_env; demo_env_failing; demo_env]) w in
  reachable epoch_isoformat epoch_isoformat_utc w
  ∧ stream w' = stream w
  ∧ delivered w' = (delivered w + 3) `min` length (stream w).
Proof.
  intros w w'. split; [apply demo_queued_reachable|].
  exact (passes_work_off_the_backlog epoch_isoformat epoch_isoformat_utc
           [demo_env; demo_env_failing; demo_env] w demo_queued_reachable).
Defined.

(** X6 at work: a text file is refused. *)
Lemma upload_rejected_before_any_store_access_witness :
  endswith (lower "notes.txt") ".pdf" = false
  ∧ ∃ detail,
      upload_document epoch_isoformat demo_id (Some demo_upload_text) PYPDF
        init_world
      = (Raise (HTTPException 400 detail), init_world).
Proof.
  assert (endswith (lower "notes.txt") ".pdf" = false) as He by reflexivity.
  split; [exact He|].
  apply (upload_rejected_before_any_store_access epoch_isoformat demo_id
           (Some demo_upload_text) PYPDF init_world).
  right. left. exists "notes.txt". split; [reflexivity|]. right. exact He.
Defined.

(** X7 at work: a name in capitals is accepted. *)
Lemma accepted_upload_is_queued_pending_witness :
  upload_filename demo_upload = Some "Report.PDF"
  ∧ truthy "Report.PDF" = true
  ∧ endswith (lower "Report.PDF") ".pdf" = true
  ∧ upload_read demo_upload = Ok "%PDF-1.4"
  ∧ truthy "%PDF-1.4" = true
  ∧ (Z.of_nat (String.length "%PDF-1.4") ≤ 10 * 1024 * 1024)%Z
  ∧ ∃ w',
      upload_document epoch_isoformat demo_id (Some demo_upload) PYPDF
        init_world
      = (Ok (mkUploadResponse demo_id PENDING
               "Document queued for processing. Use job_id to check status."),
         w')
      ∧ stored_result w' demo_id
        = Some (mkResult demo_id "Report.PDF" PYPDF PENDING None None None
                  (epoch_isoformat 0) None).
Proof.
  assert (Z.of_nat (String.length "%PDF-1.4") ≤ 10 * 1024 * 1024)%Z as Hs
    by (cbn; lia).
  split_and!; try reflexivity; [exact Hs|].
  destruct (accepted_upload_is_queued_pending epoch_isoformat
              epoch_isoformat_utc demo_id demo_upload "Report.PDF" "%PDF-1.4"
              PYPDF init_world eq_refl eq_refl eq_refl eq_refl eq_refl Hs)
    as (w' & Hrun & _ & Hrec & _).
  exists w'. split; [exact Hrun|exact Hrec].
Defined.



(** X10 at work: a job queued with an empty payload. *)
Lemma empty_payload_is_recorded_as_failed_witness :
  let w' := exec epoch_isoformat epoch_isoformat_utc (Work demo_env)
              (exec epoch_isoformat epoch_isoformat_utc
                 (Enqueue demo_id "a.pdf" "" PYPDF) init_world) in
  reachable epoch_isoformat epoch_isoformat_utc init_world
  ∧ delivered init_world = length (stream init_world)
  ∧ (demo_id ∉ (e_job_id <$> stream init_world))
  ∧ truthy "" = false
  ∧ (stored_result w' demo_id ≫= error) = Some "PDF data not found in Redis"
  ∧ pel w' = ∅.
Proof.
  intros w'.
  assert (demo_id ∉ (e_job_id <$> stream init_world)) as Hj
    by apply not_elem_of_nil.
  split; [apply reach_init|]. split; [reflexivity|]. split; [exact Hj|].
  split; [reflexivity|].
  destruct (empty_payload_is_recorded_as_failed epoch_isoformat
              epoch_isoformat_utc demo_env init_world demo_id "a.pdf" ""
              PYPDF (reach_init _ _) eq_refl Hj eq_refl) as (Hrec & Hp & _).
  fold w' in Hrec, Hp. split; [|exact Hp]. rewrite Hrec. reflexivity.
Defined.


(** X14 at work: an entry left pending stays pending through a pass, an
    hour and another pass. *)
Lemma pending_entry_is_never_taken_up_again_witness :
  let w := deliver demo_bad_world in
  stuck 0 w
  ∧ stuck 0 (exec_all epoch_isoformat epoch_isoformat_utc
               [Work demo_env; Wait 3600; Work demo_env] w).
Proof.
  intros w.
  assert (stuck 0 w) as H.
  { split; [|cbn; lia]. apply elem_of_union. left.
    apply elem_of_singleton. reflexivity. }
  split; [exact H|].
  exact (pending_entry_is_never_taken_up_again epoch_isoformat
           epoch_isoformat_utc 0 w [Work demo_env; Wait 3600; Work demo_env] H).
Defined.

(** X15 at work, on an entry for a parser that does not exist. *)
Lemma entry_with_unknown_parser_is_left_pending_witness :
  let w := demo_bad_world in
  stream w !! delivered w = Some demo_bad_entry
  ∧ ParserType_of (e_parser demo_bad_entry) = None
  ∧ worker_iteration epoch_isoformat_utc demo_env w
    = (Ok tt, tick 1 (deliver w))
  ∧ stuck (delivered w)
      (exec epoch_isoformat epoch_isoformat_utc (Work demo_env) w).
Proof.
  intros w.
  assert (stream w !! delivered w = Some demo_bad_entry) as He by reflexivity.
  assert (ParserType_of (e_parser demo_bad_entry) = None) as Hp
    by reflexivity.
  split; [exact He|]. split; [exact Hp|].
  destruct (entry_with_unknown_parser_is_left_pending epoch_isoformat
              epoch_isoformat_utc demo_env w demo_bad_entry He Hp)
    as (_ & Hw & Hs & _).
  split; [exact Hw|exact Hs].
Defined.

(** X16 at work, on a status key that holds a text that is no record. *)
Lemma unreadable_record_leaves_entry_pending_witness :
  let w := demo_unreadable epoch_isoformat in
  let e := demo_entry epoch_isoformat in
  stream w !! delivered w = Some e
  ∧ ParserType_of (e_parser e) = Some PYPDF
  ∧ (get_result demo_id w).1 = Raise (ValueError "invalid JSON document")
  ∧ stuck (delivered w)
      (exec epoch_isoformat epoch_isoformat_utc (Work demo_env) w)
  ∧ kv (exec epoch_isoformat epoch_isoformat_utc (Work demo_env) w) = kv w.
Proof.
  intros w e.
  assert (stream w !! delivered w = Some e) as He by reflexivity.
  assert (ParserType_of (e_parser e) = Some PYPDF) as Hp by reflexivity.
  assert ((get_result (e_job_id e) w).1
          = Raise (ValueError "invalid JSON document")) as Hg
    by (vm_compute; reflexivity).
  split; [exact He|]. split; [exact Hp|]. split; [exact Hg|].
  destruct (unreadable_record_leaves_entry_pending epoch_isoformat
              epoch_isoformat_utc demo_env w e PYPDF _ He Hp Hg)
    as (_ & Hs & Hkv).
  split; [exact Hs|exact Hkv].
Defined.


(** X18 at work, on the same calls. *)
Lemma gemini_result_is_never_blank_witness :
  0 < 3
  ∧ process_with_gemini demo_env_retry "%PDF-1.4" "a.pdf" true 3 init_world
    = (Ok (Some "# A title and its text"), tick 3 init_world)
  ∧ ∃ text n,
      Some "# A title and its text" = Some text
      ∧ (text = no_text ∨ text = timed_out_message 3
         ∨ (truthy text = true ∧ 10 ≤ String.length (strip text)
            ∧ ∃ a, 1 ≤ a ≤ 3
                   ∧ env_gemini_attempt demo_env_retry "%PDF-1.4" "a.pdf"
                       true a = Ok text))
      ∧ n < 3 ∧ tick 3 init_world = tick (3 * Z.of_nat n) init_world.
Proof.
  assert (0 < 3) as Hr by lia.
  assert (process_with_gemini demo_env_retry "%PDF-1.4" "a.pdf" true 3
            init_world
          = (Ok (Some "# A title and its text"), tick 3 init_world)) as Hrun
    by (vm_compute; reflexivity).
  split; [exact Hr|]. split; [exact Hrun|].
  exact (gemini_result_is_never_blank demo_env_retry "%PDF-1.4" "a.pdf" true 3
           init_world _ _ Hr Hrun).
Defined.

(** X20 at work: the second page is broken, the first is extracted. *)
Lemma page_with_text_is_extracted_witness :
  let lib := demo_lib "Selectable text of page one" in
  lib_pages lib "%PDF-1.4" = Ok 2 ∧ 1 ≤ 1 ≤ 2
  ∧ is_image_based_pdf lib "%PDF-1.4" = false
  ∧ lib_extract_text lib "%PDF-1.4" 1 = Ok "Selectable text of page one"
  ∧ truthy (strip "Selectable text of page one") = true
  ∧ ∃ pre post,
      extract_with_pypdf lib "%PDF-1.4"
      = Ok (pre +:+ ("## Page " +:+ pretty 1 +:+ nl +:+ nl
                       +:+ "Selectable text of page one" +:+ nl) +:+ post).
Proof.
  intros lib. assert (1 ≤ 1 ≤ 2) as Hk by lia.
  split; [reflexivity|]. split; [exact Hk|]. split; [reflexivity|].
  split; [reflexivity|]. split; [reflexivity|].
  exact (page_with_text_is_extracted lib "%PDF-1.4"
           "Selectable text of page one" 2 1 eq_refl Hk eq_refl eq_refl
           eq_refl).
Defined.

(** X21 at work: the text of the second page does not matter. *)
Lemma scanned_first_page_sends_every_page_to_ocr_witness :
  is_image_based_pdf (demo_scan_lib "one text") "%PDF-1.4" = true
  ∧ extract_with_pypdf (demo_scan_lib "another text") "%PDF-1.4"
    = extract_with_pypdf (demo_scan_lib "one text") "%PDF-1.4".
Proof.
  split; [reflexivity|].
  apply (scanned_first_page_sends_every_page_to_ocr
           (demo_scan_lib "one text") (demo_scan_lib "another text")
           "%PDF-1.4"); reflexivity.
Defined.

(** X23 at work: two contents of 10001 characters that differ in the
    last. *)
#[warnings="-abstract-large-number"] Lemma summary_reads_the_first_10000_characters_witness :
  take_chars 10000 (demo_long "b") = take_chars 10000 (demo_long "c")
  ∧ ∀ generate_content,
      generate_summary generate_content (demo_long "b")
      = generate_summary generate_content (demo_long "c").
Proof.
  split; [vm_compute; reflexivity|]. intros generate_content.
  apply (summary_reads_the_first_10000_characters generate_content
           (demo_long "b") (demo_long "c")).
  - vm_compute. reflexivity.
  - apply Nat.ltb_lt. vm_compute. reflexivity.
  - apply Nat.ltb_lt. vm_compute. reflexivity.
  - apply Nat.leb_le. vm_compute. reflexivity.
  - apply Nat.leb_le. vm_compute. reflexivity.
Defined.

(** X24 at work, from the empty system. *)
Lemma document_without_pages_fails_the_job_witness :
  let env := service_env demo_empty_lib (λ _, Ok "a summary")
               (λ _ _ _ _, Raise (Timeout "read timed out")) 7 in
  let w' := exec epoch_isoformat epoch_isoformat_utc (Work env)
              (exec epoch_isoformat epoch_isoformat_utc
                 (Enqueue demo_id "a.pdf" "%PDF-1.4" PYPDF) init_world) in
  reachable epoch_isoformat epoch_isoformat_utc init_world
  ∧ delivered init_world = length (stream init_world)
  ∧ (demo_id ∉ (e_job_id <$> stream init_world))
  ∧ truthy "%PDF-1.4" = true
  ∧ lib_pages demo_empty_lib "%PDF-1.4" = Ok 0
  ∧ (7 < 3600)%N
  ∧ (stored_result w' demo_id ≫= error)
    = Some "PyPDF extraction failed: PDF has no pages".
Proof.
  intros env w'.
  assert (demo_id ∉ (e_job_id <$> stream init_world)) as Hj
    by apply not_elem_of_nil.
  assert (7 < 3600)%N as Hs by lia.
  split; [apply reach_init|]. split; [reflexivity|]. split; [exact Hj|].
  split; [reflexivity|]. split; [reflexivity|]. split; [exact Hs|].
  unfold w', env.
  rewrite (document_without_pages_fails_the_job epoch_isoformat
             epoch_isoformat_utc demo_empty_lib (λ _, Ok "a summary")
             (λ _ _ _ _, Raise (Timeout "read timed out")) 7 init_world
             demo_id "a.pdf" "%PDF-1.4" (reach_init _ _) eq_refl Hj eq_refl
             eq_refl Hs).
  reflexivity.
Defined.

(** X25 at work: the text is extracted, the model refuses. *)
Lemma summary_error_discards_the_content_witness :
  let text := "## Page 1" +:+ nl +:+ nl +:+ demo_page_text +:+ nl in
  let generate_content := λ _ : string,
        @Raise string (Exception "quota exceeded") in
  let env := service_env (demo_lib demo_page_text) generate_content
               (λ _ _ _ _, Raise (Timeout "read timed out")) 7 in
  let w' := exec epoch_isoformat epoch_isoformat_utc (Work env)
              (exec epoch_isoformat epoch_isoformat_utc
                 (Enqueue demo_id "a.pdf" "%PDF-1.4" PYPDF) init_world) in
  reachable epoch_isoformat epoch_isoformat_utc init_world
  ∧ delivered init_world = length (stream init_world)
  ∧ (demo_id ∉ (e_job_id <$> stream init_world))
  ∧ truthy "%PDF-1.4" = true ∧ (7 < 3600)%N
  ∧ extract_with_pypdf (demo_lib demo_page_text) "%PDF-1.4" = Ok text
  ∧ 100 ≤ String.length (strip text)
  ∧ (stored_result w' demo_id ≫= error)
    = Some "Summary generation failed: quota exceeded"
  ∧ (stored_result w' demo_id ≫= content) = None.
Proof.
  intros text generate_content env w'.
  assert (demo_id ∉ (e_job_id <$> stream init_world)) as Hj
    by apply not_elem_of_nil.
  assert (7 < 3600)%N as Hs by lia.
  assert (extract_with_pypdf (demo_lib demo_page_text) "%PDF-1.4"
          = Ok text) as Hc by (vm_compute; reflexivity).
  assert (100 ≤ String.length (strip text)) as Hl
    by (apply Nat.leb_le; vm_compute; reflexivity).
  split; [apply reach_init|]. split; [reflexivity|]. split; [exact Hj|].
  split; [reflexivity|]. split; [exact Hs|]. split; [exact Hc|].
  split; [exact Hl|].
  unfold w', env.
  rewrite (summary_error_discards_the_content epoch_isoformat
             epoch_isoformat_utc (demo_lib demo_page_text) generate_content
             (λ _ _ _ _, Raise (Timeout "read timed out")) 7 init_world
             demo_id "a.pdf" "%PDF-1.4" text (Exception "quota exceeded")
             (reach_init _ _) eq_refl Hj eq_refl Hs Hc Hl eq_refl).
  split; reflexivity.
Defined.

(** X26 at work: a short page completes though the model is down. *)
Lemma short_document_completes_without_the_model_witness :
  let text := "## Page 1" +:+ nl +:+ nl +:+ "Hello, world!" +:+ nl in
  let generate_content := λ _ : string,
        @Raise string (Exception "quota exceeded") in
  let env := service_env (demo_lib "Hello, world!") generate_content
               (λ _ _ _ _, Raise (Timeout "read timed out")) 7 in
  let w' := exec epoch_isoformat epoch_isoformat_utc (Work env)
              (exec epoch_isoformat epoch_isoformat_utc
                 (Enqueue demo_id "a.pdf" "%PDF-1.4" PYPDF) init_world) in
  reachable epoch_isoformat epoch_isoformat_utc init_world
  ∧ delivered init_world = length (stream init_world)
  ∧ (demo_id ∉ (e_job_id <$> stream init_world))
  ∧ truthy "%PDF-1.4" = true
  ∧ extract_with_pypdf (demo_lib "Hello, world!") "%PDF-1.4" = Ok text
  ∧ String.length (strip text) < 100
  ∧ (stored_result w' demo_id ≫= summary)
    = Some "Document is too short to summarize effectively."
  ∧ (stored_result w' demo_id ≫= content) = Some text.
Proof.
  intros text generate_content env w'.
  assert (demo_id ∉ (e_job_id <$> stream init_world)) as Hj
    by apply not_elem_of_nil.
  assert (extract_with_pypdf (demo_lib "Hello, world!") "%PDF-1.4"
          = Ok text) as Hc by (vm_compute; reflexivity).
  assert (String.length (strip text) < 100) as Hl
    by (apply Nat.ltb_lt; vm_compute; reflexivity).
  split; [apply reach_init|]. split; [reflexivity|]. split; [exact Hj|].
  split; [reflexivity|]. split; [exact Hc|]. split; [exact Hl|].
  unfold w', env.
  rewrite (short_document_completes_without_the_model epoch_isoformat
             epoch_isoformat_utc (demo_lib "Hello, world!") generate_content
             (λ _ _ _ _, Raise (Timeout "read timed out")) 7 init_world
             demo_id "a.pdf" "%PDF-1.4" text (reach_init _ _) eq_refl Hj
             eq_refl Hc Hl).
  split; reflexivity.
Defined.
